(** * Flush+Reload cache-timing demo of the trusted OS (cache_timer.go)

    A shallow embedding of [CacheTimerDemo] and its helpers
    (internal/cache_timer.go, internal/pmu_arm.s) together with the
    properties of the calibration, the probing session and the accuracy
    report.

    - Go [uint32]/[uint64] values are [Z] with the wrap-around written out.
    - Go [float64] values are IEEE-754 binary64 numbers, [spec_float] at
      precision 53 and maximal exponent 1024, with round-to-nearest-even.
    - The coprocessor (PMU cycle counter, generic timer, data cache and
      barrier) is an abstract [Platform]; every primitive the code calls is
      one [op], and the embedding records each call in a trace.
    - The slices [target], [victimPattern] and [detected] live in the
      program state; an index out of range or a negative length given to
      [make] is a Go panic, here [None].  The platform models the timing
      and cache effect of a load; the byte that a load returns comes from
      [target]. *)

From Stdlib Require Import ZArith Lia Bool.
From Stdlib Require Import Floats.SpecFloat.
From stdpp Require Import base list.

Local Open Scope Z_scope.

(** ** Machine integers *)

Definition wrap32 (z : Z) : Z := z mod 2 ^ 32.
Definition wrap64 (z : Z) : Z := z mod 2 ^ 64.

(** [end - start] on two [uint32] values. *)
Definition sub32 (e s : Z) : Z := wrap32 (e - s).
(** [end - start] on two [uint64] values. *)
Definition sub64 (e s : Z) : Z := wrap64 (e - s).
(** [sum += uint64(d)] on a [uint64] accumulator. *)
Definition add64 (sum d : Z) : Z := wrap64 (sum + d).

(** Sum of a list of durations, without wrap-around. *)
Definition total_of (ds : list Z) : Z := foldr Z.add 0 ds.

(** The [uint64] accumulator after adding the durations [ds] one by one. *)
Definition accumulate (ds : list Z) (sum : Z) : Z := foldl add64 sum ds.

(** ** float64 *)

Module F64.
Definition prec : Z := 53.
Definition emax : Z := 1024.

Definition t : Type := spec_float.

(** Conversion of an integer, [float64(x)], and of an integer literal. *)
Definition of_Z (z : Z) : t := binary_normalize prec emax z 0 false.

Definition add (x y : t) : t := SFadd prec emax x y.
Definition mul (x y : t) : t := SFmul prec emax x y.
Definition div (x y : t) : t := SFdiv prec emax x y.
Definition ltb (x y : t) : bool := SFltb x y.
Definition leb (x y : t) : bool := SFleb x y.

Definition zero : t := S754_zero false.

(** A float that is not NaN and carries no minus sign on a nonzero value. *)
Definition nonneg (x : t) : bool :=
  match x with
  | S754_zero _ => true
  | S754_finite s _ _ => negb s
  | S754_infinity s => negb s
  | S754_nan => false
  end.

Definition finite (x : t) : bool :=
  match x with
  | S754_zero _ | S754_finite _ _ _ => true
  | _ => false
  end.

Definition positive (x : t) : bool :=
  match x with
  | S754_finite s _ _ => negb s
  | S754_infinity s => negb s
  | _ => false
  end.

(** The well-formedness invariant of a binary64 value: the mantissa is
    canonical for the exponent and the exponent is in range. *)
Definition valid (x : t) : bool := valid_binary prec emax x.

(** The value of a finite float in units of [2 ^ -1074], the smallest
    positive binary64 number: an integer for every well-formed float. *)
Definition units (x : t) : option Z :=
  match x with
  | S754_zero _ => Some 0
  | S754_finite s m e =>
      Some ((if s then Z.neg m else Z.pos m) * 2 ^ (e - emin prec emax))
  | _ => None
  end.

(** The value of [x] is below the value of [y], both finite. *)
Definition value_lt (x y : t) : Prop :=
  match units x, units y with
  | Some a, Some b => a < b
  | _, _ => False
  end.

(** The rational value [num / den] of a finite float, as a pair
    (numerator, power-of-two denominator); [None] for infinities and NaN. *)
Definition to_frac (x : t) : option (Z * Z) :=
  match x with
  | S754_zero _ => Some (0, 1)
  | S754_finite s m e =>
      let sm := if s then Z.neg m else Z.pos m in
      if 0 <=? e then Some (sm * 2 ^ e, 1) else Some (sm, 2 ^ (- e))
  | _ => None
  end.

(** [x] is the exact value of the fraction [n / d]. *)
Definition exactly (x : t) (n d : Z) : Prop :=
  match to_frac x with
  | Some (a, b) => 0 < d /\ a * d = n * b
  | None => False
  end.
End F64.

(** ** The platform *)

(** The hardware primitives the code calls: the [arm.CPU] methods, the
    assembly stubs of pmu_arm.s, [dsb], and a data load at a byte offset of
    the target buffer. *)
Inductive op : Type :=
  | OpEnableSMP
  | OpEnableCache
  | OpInitGenericTimers
  | OpFlushDataCache
  | OpCounter
  | OpDsb
  | OpEnablePMU
  | OpReadPMU
  | OpResetPMU
  | OpLoad (addr : Z).

(** One call of a primitive and the value it handed back to the program. *)
Inductive event : Type := Ev (o : op) (result : Z).

Record Platform : Type := {
  machine : Type;
  exec : op -> machine -> Z * machine
}.

(** What the program sees of a primitive's raw result: PMCCNTR is moved to
    a [uint32] return slot, [cpu.Counter] is a [uint64], the others return
    nothing. *)
Definition visible (o : op) (raw : Z) : Z :=
  match o with
  | OpReadPMU => wrap32 raw
  | OpCounter => wrap64 raw
  | _ => 0
  end.

(** ** Program state and the state-and-panic monad *)

Section Program.
Context (P : Platform).

Record state : Type := mkState {
  hw : machine P;
  trace : list event;
  target : list Z;
  victimPattern : list bool;
  detected : list bool
}.

Definition M (A : Type) : Type := state -> option (A * state).

Definition ret {A} (a : A) : M A := fun s => Some (a, s).
Definition bind {A B} (m : M A) (k : A -> M B) : M B :=
  fun s => match m s with
           | Some (a, s') => k a s'
           | None => None
           end.

Notation "'do' x <- m ; k" := (bind m (fun x => k))
  (at level 10, x name, m at level 100, k at level 200).
Notation "m ;; k" := (bind m (fun _ => k))
  (at level 100, k at level 200, right associativity).

(** A call of a hardware primitive. *)
Definition call (o : op) : M Z := fun s =>
  let '(raw, h') := exec P o (hw s) in
  let v := visible o raw in
  Some (v, mkState h' (trace s ++ [Ev o v]) (target s) (victimPattern s) (detected s)).

Definition dsb : M unit := call OpDsb ;; ret tt.
Definition enablePMU : M unit := call OpEnablePMU ;; ret tt.
Definition readPMUCycleCounter : M Z := call OpReadPMU.
Definition resetPMUCycleCounter : M unit := call OpResetPMU ;; ret tt.
Definition EnableSMP : M unit := call OpEnableSMP ;; ret tt.
Definition EnableCache : M unit := call OpEnableCache ;; ret tt.
Definition InitGenericTimers : M unit := call OpInitGenericTimers ;; ret tt.
Definition FlushDataCache : M unit := call OpFlushDataCache ;; ret tt.
Definition Counter : M Z := call OpCounter.

(** [&target[i]]: the pointer is the byte offset; out of range panics. *)
Definition addr_target (i : Z) : M Z := fun s =>
  if (0 <=? i) && (i <? Z.of_nat (length (target s))) then Some (i, s) else None.

(** [victimPattern[i]]. *)
Definition read_pattern (i : Z) : M bool := fun s =>
  if 0 <=? i then
    match victimPattern s !! Z.to_nat i with
    | Some b => Some (b, s)
    | None => None
    end
  else None.

(** [detected[i]]. *)
Definition read_detected (i : Z) : M bool := fun s =>
  if 0 <=? i then
    match detected s !! Z.to_nat i with
    | Some b => Some (b, s)
    | None => None
    end
  else None.

(** [detected := make([]bool, n)]: a fresh slice of [n] entries, all
    [false]; a negative length panics ([makeslice: len out of range]). *)
Definition make_detected (n : Z) : M unit := fun s =>
  if n <? 0 then None
  else Some (tt, mkState (hw s) (trace s) (target s) (victimPattern s)
                   (replicate (Z.to_nat n) false)).

(** [detected[i] = b]. *)
Definition write_detected (i : Z) (b : bool) : M unit := fun s =>
  if (0 <=? i) && (i <? Z.of_nat (length (detected s))) then
    Some (tt, mkState (hw s) (trace s) (target s) (victimPattern s)
                (<[Z.to_nat i := b]> (detected s)))
  else None.

(** [func accessByte(ptr *byte) byte { return *ptr }] *)
Definition accessByte (ptr : Z) : M Z :=
  call (OpLoad ptr) ;;
  fun s => match target s !! Z.to_nat ptr with
           | Some b => Some (b, s)
           | None => None
           end.

(** [for i := i0; ...; i++] run [n] times, threading the loop-carried
    variables [a]. *)
Fixpoint for_loop {A} (n : nat) (i : Z) (body : Z -> A -> M A) (a : A) : M A :=
  match n with
  | O => ret a
  | S k => do a' <- body i a; for_loop k (i + 1) body a'
  end.

(** [func flushReload(cpu *arm.CPU, ptr *byte) uint64] *)
Definition flushReload (ptr : Z) : M Z :=
  FlushDataCache ;;
  dsb ;;
  for_loop 100 0 (fun _ _ => ret tt) tt ;;
  do start <- Counter;
  accessByte ptr ;;
  dsb ;;
  do end_ <- Counter;
  ret (sub64 end_ start).

(** [func simulateVictimAccess(ptr *byte, shouldAccess bool)] *)
Definition simulateVictimAccess (ptr : Z) (shouldAccess : bool) : M unit :=
  if shouldAccess then accessByte ptr ;; ret tt else ret tt.

(** [wasAccessed := timing < threshold] *)
Definition classify (timing threshold : F64.t) : bool := F64.ltb timing threshold.

Record CalibrationResult : Type := mkCalibration {
  hitAvg : F64.t;
  missAvg : F64.t;
  threshold : F64.t
}.

Record AccuracyReport : Type := mkReport {
  correct : Z;
  total : Z;
  accuracy : F64.t
}.

(** One round of the calibration loop (lines 110-126); the loop-carried
    variables are [(hitSum, missSum)]. *)
Definition calibration_round (_ : Z) (sums : Z * Z) : M (Z * Z) :=
  let '(hitSum, missSum) := sums in
  do ptr <- addr_target 0;
  accessByte ptr ;;
  dsb ;;
  do start <- readPMUCycleCounter;
  accessByte ptr ;;
  do end_ <- readPMUCycleCounter;
  let hitSum := add64 hitSum (sub32 end_ start) in
  FlushDataCache ;;
  dsb ;;
  do start <- readPMUCycleCounter;
  accessByte ptr ;;
  do end_ <- readPMUCycleCounter;
  let missSum := add64 missSum (sub32 end_ start) in
  ret (hitSum, missSum).

(** Lines 106-127, with the sample count as a parameter. *)
Definition calibration_sums (samples : Z) : M (Z * Z) :=
  for_loop (Z.to_nat samples) 0 calibration_round (0, 0).

(** Lines 129-131. *)
Definition calibration_result (samples : Z) (sums : Z * Z) : CalibrationResult :=
  let hitAvg := F64.div (F64.of_Z (fst sums)) (F64.of_Z samples) in
  let missAvg := F64.div (F64.of_Z (snd sums)) (F64.of_Z samples) in
  mkCalibration hitAvg missAvg (F64.div (F64.add hitAvg missAvg) (F64.of_Z 2)).

Definition calibrate (samples : Z) : M CalibrationResult :=
  do sums <- calibration_sums samples;
  ret (calibration_result samples sums).

(** One round of the probing loop (lines 153-170). *)
Definition probe_line (cacheLineSize : Z) (threshold : F64.t)
    (line : Z) (_ : unit) : M unit :=
  do ptr <- addr_target (line * cacheLineSize);
  FlushDataCache ;;
  dsb ;;
  do shouldAccess <- read_pattern line;
  simulateVictimAccess ptr shouldAccess ;;
  do start <- readPMUCycleCounter;
  accessByte ptr ;;
  do end_ <- readPMUCycleCounter;
  let timing := F64.of_Z (sub32 end_ start) in
  let wasAccessed := classify timing threshold in
  write_detected line wasAccessed.

(** Lines 152-179. *)
Definition probe_lines (numLines cacheLineSize : Z) (threshold : F64.t) : M unit :=
  for_loop (Z.to_nat numLines) 0 (probe_line cacheLineSize threshold) tt.

(** One round of the scoring loop (lines 184-186). *)
Definition score_line (i : Z) (correct : Z) : M Z :=
  do d <- read_detected i;
  do v <- read_pattern i;
  ret (if Bool.eqb d v then correct + 1 else correct).

(** Lines 182-188. *)
Definition score (numLines : Z) : M AccuracyReport :=
  do correct <- for_loop (Z.to_nat numLines) 0 score_line 0;
  ret (mkReport correct numLines
         (F64.mul (F64.div (F64.of_Z correct) (F64.of_Z numLines)) (F64.of_Z 100))).

(** Lines 150-190: allocate [detected], probe every line, score. *)
Definition runSession (numLines cacheLineSize : Z) (threshold : F64.t)
    : M AccuracyReport :=
  make_detected numLines ;;
  probe_lines numLines cacheLineSize threshold ;;
  score numLines.

(** One sample of the timing-distribution loops (lines 198-205, 211-218). *)
Definition distribution_sample (off : Z) (shouldAccess : bool) (_ : Z) (_ : unit)
    : M unit :=
  FlushDataCache ;;
  dsb ;;
  do ptr <- addr_target off;
  simulateVictimAccess ptr shouldAccess ;;
  do start <- readPMUCycleCounter;
  accessByte ptr ;;
  do end_ <- readPMUCycleCounter;
  let _timing := sub32 end_ start in
  ret tt.

Definition cacheLineSize : Z := 32.
Definition numLines : Z := 16.
Definition calibSamples : Z := 100.

Definition demoPattern : list bool :=
  [true; false; true; true; false; false; true; false;
   true; false; false; true; true; false; true; false].

(** [target := make([]byte, cacheLineSize*numLines)] filled with [byte(i)]. *)
Definition demoTarget : list Z :=
  map (fun i => Z.of_nat i mod 256) (seq 0 (Z.to_nat (cacheLineSize * numLines))).

(** [func CacheTimerDemo()], without the log output. *)
Definition CacheTimerDemo : M (CalibrationResult * AccuracyReport) :=
  EnableSMP ;;
  EnableCache ;;
  InitGenericTimers ;;
  enablePMU ;;
  resetPMUCycleCounter ;;
  do start <- readPMUCycleCounter;
  dsb ;;
  do end_ <- readPMUCycleCounter;
  let _pmuOverhead := sub32 end_ start in
  do gtStart <- Counter;
  dsb ;;
  do gtEnd <- Counter;
  let _gtOverhead := sub64 gtEnd gtStart in
  (fun s => Some (tt, mkState (hw s) (trace s) demoTarget (victimPattern s) (detected s))) ;;
  do cal <- calibrate calibSamples;
  (fun s => Some (tt, mkState (hw s) (trace s) (target s) demoPattern (detected s))) ;;
  do rep <- runSession numLines cacheLineSize (threshold cal);
  for_loop 10 0 (distribution_sample 0 true) tt ;;
  for_loop 10 0 (distribution_sample cacheLineSize false) tt ;;
  ret (cal, rep).

(** The state in which the demo starts: nothing allocated yet. *)
Definition boot (h : machine P) : state := mkState h [] [] [] [].
End Program.

Arguments mkState {P}.
Arguments hw {P}.
Arguments trace {P}.
Arguments target {P}.
Arguments victimPattern {P}.
Arguments detected {P}.
Arguments ret {P A}.
Arguments bind {P A B}.
Arguments for_loop {P A}.

(** ** Deterministic platforms *)

(** A cache with a fixed hit and miss latency.  The cycle counter advances
    by the latency of every load and by nothing else; a load brings its line
    into the cache; a flush empties the cache. *)
Module Stub.
Record cache_state : Type := mkCache {
  cycles : Z;
  cached : list Z
}.

Definition line_of (lineSize addr : Z) : Z := addr / lineSize.

Definition is_cached (lineSize addr : Z) (lines : list Z) : bool :=
  bool_decide (line_of lineSize addr ∈ lines).

Definition step (lineSize hit miss : Z) (o : op) (m : cache_state)
    : Z * cache_state :=
  match o with
  | OpFlushDataCache => (0, mkCache (cycles m) [])
  | OpLoad addr =>
      if is_cached lineSize addr (cached m)
      then (0, mkCache (cycles m + hit) (cached m))
      else (0, mkCache (cycles m + miss) (line_of lineSize addr :: cached m))
  | OpReadPMU => (cycles m, m)
  | OpCounter => (cycles m, m)
  | OpResetPMU => (0, mkCache 0 (cached m))
  | _ => (0, m)
  end.

Definition platform (lineSize hit miss : Z) : Platform :=
  {| machine := cache_state; exec := step lineSize hit miss |}.

Definition cold : cache_state := mkCache 0 [].
End Stub.

(** A platform whose cycle counter replays a given list of readings (and
    reads 0 once the list is used up); nothing else has an effect. *)
Module Script.
Definition step (o : op) (m : list Z) : Z * list Z :=
  match o with
  | OpReadPMU => (hd 0 m, tl m)
  | _ => (0, m)
  end.

Definition platform : Platform := {| machine := list Z; exec := step |}.
End Script.

(** ** What a run leaves in the trace *)

(** The two readings of the cycle counter around one timed load. *)
Definition sample : Type := (Z * Z)%type.

Definition duration (m : sample) : Z := sub32 (snd m) (fst m).

Definition valid_sample (m : sample) : Prop :=
  (0 <= fst m < 2 ^ 32) /\ (0 <= snd m < 2 ^ 32).

(** Counter read, load of [addr], counter read. *)
Definition timed_events (addr : Z) (m : sample) : list event :=
  [Ev OpReadPMU (fst m); Ev (OpLoad addr) 0; Ev OpReadPMU (snd m)].

(** The hit measurement of a calibration round: prime, barrier, timed load. *)
Definition hit_events (m : sample) : list event :=
  [Ev (OpLoad 0) 0; Ev OpDsb 0] ++ timed_events 0 m.

(** The miss measurement of a calibration round: flush, barrier, timed load. *)
Definition miss_events (m : sample) : list event :=
  [Ev OpFlushDataCache 0; Ev OpDsb 0] ++ timed_events 0 m.

Definition calibration_events (rounds : list (sample * sample)) : list event :=
  concat (map (fun r => hit_events (fst r) ++ miss_events (snd r)) rounds).

(** The victim's turn on a line. *)
Definition victim_events (addr : Z) (shouldAccess : bool) : list event :=
  if shouldAccess then [Ev (OpLoad addr) 0] else [].

(** One probe: flush, barrier, victim's turn, timed reload. *)
Definition probe_events (lineSize line : Z) (shouldAccess : bool) (m : sample)
    : list event :=
  [Ev OpFlushDataCache 0; Ev OpDsb 0]
  ++ victim_events (line * lineSize) shouldAccess
  ++ timed_events (line * lineSize) m.

(** The probes of the lines [line], [line + 1], ... in this order. *)
Fixpoint session_events (lineSize line : Z) (pattern : list bool) (ms : list sample)
    : list event :=
  match pattern, ms with
  | b :: pattern', m :: ms' =>
      probe_events lineSize line b m ++ session_events lineSize (line + 1) pattern' ms'
  | _, _ => []
  end.

(** The verdict on one reload. *)
Definition verdict (threshold : F64.t) (m : sample) : bool :=
  classify (F64.of_Z (duration m)) threshold.

(** Number of positions at which two sequences agree. *)
Fixpoint agreements (d p : list bool) : Z :=
  match d, p with
  | x :: d', y :: p' => (if Bool.eqb x y then 1 else 0) + agreements d' p'
  | _, _ => 0
  end.

(** The hardware after it served the calls [evs]. *)
Fixpoint hw_after {P} (h : machine P) (evs : list event) : machine P :=
  match evs with
  | [] => h
  | Ev o _ :: evs' => hw_after (snd (exec P o h)) evs'
  end.

(** Every value in [evs] is what the hardware, started in [h], handed back. *)
Fixpoint genuine {P} (h : machine P) (evs : list event) : Prop :=
  match evs with
  | [] => True
  | Ev o v :: evs' =>
      v = visible o (fst (exec P o h)) /\ genuine (snd (exec P o h)) evs'
  end.

(** [s'] is [s] after the hardware calls [evs]: the slices are untouched. *)
Definition after {P} (s : state P) (evs : list event) (s' : state P) : Prop :=
  trace s' = trace s ++ evs /\
  target s' = target s /\
  victimPattern s' = victimPattern s /\
  detected s' = detected s /\
  genuine (hw s) evs /\
  hw s' = hw_after (hw s) evs.

(** A computation that, when it returns, leaves the buffer and the pattern
    as they were. *)
Definition preserves {P A} (m : M P A) : Prop :=
  forall s a s', m s = Some (a, s') ->
    target s' = target s /\ victimPattern s' = victimPattern s.

(** Position [i] holds the same boolean in both sequences. *)
Definition agree_at (d p : list bool) (i : nat) : bool :=
  match d !! i, p !! i with
  | Some x, Some y => Bool.eqb x y
  | _, _ => false
  end.

(** Number of indices below [n] at which the two sequences agree. *)
Definition count_agreeing (d p : list bool) (n : nat) : Z :=
  Z.of_nat (length (filter (fun i => agree_at d p i = true) (seq 0 n))).

(** [end - start] as the code computes it: the difference modulo [2 ^ 32],
    never negative; when the second reading is below the first, the
    difference is [2 ^ 32] minus the gap, a positive number. *)
Definition unsigned_difference (m : sample) : Prop :=
  duration m = (snd m - fst m) mod 2 ^ 32 /\
  0 <= duration m < 2 ^ 32 /\
  (fst m <= snd m -> duration m = snd m - fst m) /\
  (snd m < fst m -> duration m = 2 ^ 32 - (fst m - snd m) /\ 0 < duration m).

Definition hit_durations (rounds : list (sample * sample)) : list Z :=
  map (fun r => duration (fst r)) rounds.

Definition miss_durations (rounds : list (sample * sample)) : list Z :=
  map (fun r => duration (snd r)) rounds.

(** The stub of the test scenario: a hit takes 10 cycles, a miss 200. *)
Definition scenario : Platform := Stub.platform 32 10 200.

(** The demo's buffer and pattern in place, before the session starts. *)
Definition scenario_state : state scenario :=
  @mkState scenario Stub.cold [] demoTarget demoPattern [].

(** A state to score: the demo's pattern against a result that says
    "accessed" for every line. *)
Definition scored_state : state scenario :=
  @mkState scenario Stub.cold [] demoTarget demoPattern (replicate 16 true).

(** A second start state of the scenario: another counter value, a warm
    cache, another pattern that agrees with the demo's at index 2 only. *)
Definition scenario_state_alt : state scenario :=
  @mkState scenario (Stub.mkCache 4294967000 [0; 1; 2; 3]) [] demoTarget
    [false; true; true; false; true; true; false; true;
     false; true; true; false; false; true; false; true] [].

(** Counter reads, of the PMU or of the generic timer. *)
Definition is_counter_read (o : op) : bool :=
  match o with
  | OpReadPMU | OpCounter => true
  | _ => false
  end.

(** The primitives called between the first and the second counter read of
    every pair of reads; [open] holds the calls seen since an unmatched first
    read. *)
Fixpoint between_reads (open : option (list op)) (evs : list event)
    : list (list op) :=
  match evs with
  | [] => []
  | Ev o _ :: evs' =>
      if is_counter_read o then
        match open with
        | None => between_reads (Some []) evs'
        | Some ops => ops :: between_reads None evs'
        end
      else
        match open with
        | None => between_reads None evs'
        | Some ops => between_reads (Some (ops ++ [o])) evs'
        end
  end.

(** Byte offsets of the lines [line], [line + 1], ... of a session. *)
Fixpoint line_offsets (lineSize line : Z) (n : nat) : list Z :=
  match n with
  | O => []
  | S k => line * lineSize :: line_offsets lineSize (line + 1) k
  end.

(** The policy of the specification for implausible samples: only the
    durations up to [limit] enter the sum. *)
Definition plausible_sum (limit : Z) (ds : list Z) : Z :=
  accumulate (filter (fun d => d <= limit) ds) 0.

Definition outliers_excluded (limit : Z) (ds : list Z) (sum : Z) : Prop :=
  sum = plausible_sum limit ds.

(** Counter readings with a glitch in the first hit sample: the second
    reading is below the first.  All other samples read 10 cycles for a hit
    and 200 for a miss. *)
Definition glitch_readings : list Z :=
  [100; 50; 0; 200] ++ concat (replicate 99 [0; 10; 0; 200]).

Definition glitch_state : state Script.platform :=
  @mkState Script.platform glitch_readings [] demoTarget [] [].

Definition glitch_rounds : list (sample * sample) :=
  ((100, 50), (0, 200)) :: replicate 99 ((0, 10), (0, 200)).

(** The verdict the stub leads to for a line the victim did or did not
    touch. *)
Definition stub_verdict (hit miss : Z) (threshold : F64.t) (b : bool) : bool :=
  classify (F64.of_Z (wrap32 (if b then hit else miss))) threshold.

(** ** The sequence of primitives, without the values they returned *)

Definition ops_of (evs : list event) : list op :=
  map (fun e => match e with Ev o _ => o end) evs.

Definition timed_ops (addr : Z) : list op := [OpReadPMU; OpLoad addr; OpReadPMU].

(** One calibration round. *)
Definition round_ops : list op :=
  [OpLoad 0; OpDsb] ++ timed_ops 0 ++ [OpFlushDataCache; OpDsb] ++ timed_ops 0.

(** Flush, barrier, the victim's turn on [addr], timed load of [addr]. *)
Definition turn_ops (addr : Z) (shouldAccess : bool) : list op :=
  [OpFlushDataCache; OpDsb]
  ++ (if shouldAccess then [OpLoad addr] else [])
  ++ timed_ops addr.

Fixpoint session_ops (lineSize line : Z) (pattern : list bool) : list op :=
  match pattern with
  | [] => []
  | b :: pattern' =>
      turn_ops (line * lineSize) b ++ session_ops lineSize (line + 1) pattern'
  end.

(** The calls of the demo before it allocates the buffer: set-up of the
    CPU and of the PMU, and the two barrier-overhead measurements. *)
Definition prelude_events (pmu timer : sample) : list event :=
  [Ev OpEnableSMP 0; Ev OpEnableCache 0; Ev OpInitGenericTimers 0;
   Ev OpEnablePMU 0; Ev OpResetPMU 0;
   Ev OpReadPMU (fst pmu); Ev OpDsb 0; Ev OpReadPMU (snd pmu);
   Ev OpCounter (fst timer); Ev OpDsb 0; Ev OpCounter (snd timer)].

(** One sample of a timing-distribution loop. *)
Definition turn_events (addr : Z) (shouldAccess : bool) (m : sample) : list event :=
  [Ev OpFlushDataCache 0; Ev OpDsb 0]
  ++ victim_events addr shouldAccess
  ++ timed_events addr m.

Definition distribution_events (addr : Z) (shouldAccess : bool) (ms : list sample)
    : list event :=
  concat (map (turn_events addr shouldAccess) ms).

(** Every call of the demo, in order. *)
Definition demo_ops : list op :=
  ops_of (prelude_events (0, 0) (0, 0))
  ++ concat (replicate 100 round_ops)
  ++ session_ops 32 0 demoPattern
  ++ concat (replicate 10 (turn_ops 0 true))
  ++ concat (replicate 10 (turn_ops 32 false)).

(** [s'] is [s] after the hardware served the calls [evs]; the slices may
    have been replaced meanwhile. *)
Definition ran {P} (s : state P) (evs : list event) (s' : state P) : Prop :=
  trace s' = trace s ++ evs /\
  genuine (hw s) evs /\
  hw s' = hw_after (hw s) evs.

(** ** The PMU stubs of pmu_arm.s *)

(** The three assembly routines, instruction by instruction, over the
    register [R0] and an abstract coprocessor 15: what a read returns and
    what a write does is the hardware's business; the embedding logs every
    access. *)
Module Pmu.
(** A CP15 register, by the CRn, CRm and opc2 fields of the MRC or MCR that
    addresses it (the coprocessor is 15 and opc1 is 0 in every instruction
    of the file). *)
Record creg : Type := mkCreg { crn : Z; crm : Z; opc2 : Z }.

Definition PMUSERENR : creg := mkCreg 9 14 0.
Definition PMCR : creg := mkCreg 9 12 0.
Definition PMCNTENSET : creg := mkCreg 9 12 1.
Definition PMCCNTR : creg := mkCreg 9 13 0.

Record Coprocessor : Type := {
  cp : Type;
  mrc : creg -> cp -> Z * cp;
  mcr : creg -> Z -> cp -> cp
}.

Inductive access : Type :=
  | Read (r : creg) (v : Z)
  | Write (r : creg) (v : Z).

Record cpu (C : Coprocessor) : Type := mkCpu {
  R0 : Z;
  cp15 : cp C;
  log : list access
}.
Arguments mkCpu {C}.
Arguments R0 {C}.
Arguments cp15 {C}.
Arguments log {C}.

(** [MOVW $imm, R0] *)
Definition MOVW {C} (imm : Z) (c : cpu C) : cpu C :=
  mkCpu (wrap32 imm) (cp15 c) (log c).

(** [ORR $imm, R0] *)
Definition ORR {C} (imm : Z) (c : cpu C) : cpu C :=
  mkCpu (Z.lor (R0 c) (wrap32 imm)) (cp15 c) (log c).

(** [MCR 15, 0, R0, CRn, CRm, opc2]: write [R0] to the register. *)
Definition MCR {C} (r : creg) (c : cpu C) : cpu C :=
  mkCpu (R0 c) (mcr C r (R0 c) (cp15 c)) (log c ++ [Write r (R0 c)]).

(** [MRC 15, 0, R0, CRn, CRm, opc2]: read the register into [R0]. *)
Definition MRC {C} (r : creg) (c : cpu C) : cpu C :=
  let '(v, cp') := mrc C r (cp15 c) in
  mkCpu (wrap32 v) cp' (log c ++ [Read r (wrap32 v)]).

(** [TEXT enablePMU(SB),NOSPLIT,$0] *)
Definition enablePMU {C} (c : cpu C) : cpu C :=
  let c := MOVW 1 c in
  let c := MCR PMUSERENR c in
  let c := MRC PMCR c in
  let c := ORR 1 c in
  let c := ORR (Z.shiftl 1 2) c in
  let c := ORR (Z.shiftl 1 3) c in
  let c := MCR PMCR c in
  let c := MOVW (Z.shiftl 1 31) c in
  MCR PMCNTENSET c.

(** [TEXT readPMUCycleCounter(SB),NOSPLIT,$0-4]: the result is what
    [MOVW R0, ret+0(FP)] stores. *)
Definition readPMUCycleCounter {C} (c : cpu C) : Z * cpu C :=
  let c := MRC PMCCNTR c in
  (R0 c, c).

(** [TEXT resetPMUCycleCounter(SB),NOSPLIT,$0] *)
Definition resetPMUCycleCounter {C} (c : cpu C) : cpu C :=
  let c := MRC PMCR c in
  let c := ORR (Z.shiftl 1 2) c in
  MCR PMCR c.

(** The writes among the accesses. *)
Definition writes (l : list access) : list (creg * Z) :=
  flat_map (fun a => match a with Write r v => [(r, v)] | Read _ _ => [] end) l.

End Pmu.

(** * Properties *)

(** ** Arithmetic of the machine integers *)

Lemma wrap32_range z : 0 <= wrap32 z < 2 ^ 32.
Proof. unfold wrap32. apply Z.mod_pos_bound. lia. Qed.

Lemma wrap64_range z : 0 <= wrap64 z < 2 ^ 64.
Proof. unfold wrap64. apply Z.mod_pos_bound. lia. Qed.

Lemma sub32_range e s : 0 <= sub32 e s < 2 ^ 32.
Proof. apply wrap32_range. Qed.

Lemma sub32_no_wrap e s :
  0 <= s <= e -> e < 2 ^ 32 -> sub32 e s = e - s.
Proof. intros. unfold sub32, wrap32. apply Z.mod_small. lia. Qed.

Lemma sub32_wrapped e s :
  0 <= e < s -> s < 2 ^ 32 -> sub32 e s = 2 ^ 32 - (s - e).
Proof.
  intros. unfold sub32, wrap32.
  replace (e - s) with (2 ^ 32 - (s - e) + -1 * 2 ^ 32) by lia.
  rewrite Z.mod_add by lia. apply Z.mod_small. lia.
Qed.

(** The difference of two truncated readings of a counter that advanced by
    [d] cycles is [d], truncated. *)
Lemma sub32_advance c d : sub32 (wrap32 (c + d)) (wrap32 c) = wrap32 d.
Proof.
  unfold sub32, wrap32.
  rewrite <- Zminus_mod. f_equal. lia.
Qed.


Lemma total_of_bound b ds :
  Forall (fun d => 0 <= d <= b) ds ->
  0 <= total_of ds <= Z.of_nat (length ds) * b.
Proof.
  unfold total_of. induction 1 as [|d ds Hd _ IH]; cbn [foldr length]; nia.
Qed.



Lemma accumulate_exact ds sum :
  0 <= sum ->
  Forall (fun d => 0 <= d) ds ->
  sum + total_of ds < 2 ^ 64 ->
  accumulate ds sum = sum + total_of ds.
Proof.
  intros Hs Hds. revert sum Hs. unfold total_of, accumulate.
  induction Hds as [|d ds Hd Hds IH]; intros sum Hs Hlt; cbn [foldr foldl] in *.
  - lia.
  - assert (0 <= foldr Z.add 0 ds).
    { clear -Hds. induction Hds; cbn [foldr]; lia. }
    assert (Hadd : add64 sum d = sum + d).
    { unfold add64, wrap64. apply Z.mod_small. lia. }
    rewrite Hadd, IH by lia. lia.
Qed.

(** Whatever the durations: the 64-bit accumulator holds their plain sum
    modulo [2 ^ 64]. *)
Lemma accumulate_mod ds sum :
  accumulate ds sum mod 2 ^ 64 = (sum + total_of ds) mod 2 ^ 64.
Proof.
  unfold accumulate, total_of. revert sum.
  induction ds as [|d ds IH]; intros sum; cbn [foldl foldr].
  - f_equal. lia.
  - rewrite IH. unfold add64, wrap64.
    rewrite Z.add_mod_idemp_l by lia. f_equal. lia.
Qed.

Lemma accumulate_range ds sum : 0 <= sum < 2 ^ 64 -> 0 <= accumulate ds sum < 2 ^ 64.
Proof.
  unfold accumulate. revert sum.
  induction ds as [|d ds IH]; intros sum Hs; cbn [foldl]; [exact Hs|].
  apply IH. apply wrap64_range.
Qed.

Lemma accumulate_total ds : accumulate ds 0 = total_of ds mod 2 ^ 64.
Proof.
  rewrite <- (Z.add_0_l (total_of ds)), <- accumulate_mod.
  symmetry. apply Z.mod_small. apply accumulate_range. lia.
Qed.

Lemma lookup_map {A B} (f : A -> B) (l : list A) (i : nat) (x : A) :
  l !! i = Some x -> map f l !! i = Some (f x).
Proof.
  revert i. induction l as [|y l IH]; intros [|i] H; cbn in *; try discriminate.
  - congruence.
  - apply IH. exact H.
Qed.

(** ** Running the monad *)

Section Run.
Context {P : Platform}.
Implicit Types (s : state P) (evs : list event).

Lemma bind_some {A B} (m : M P A) (k : A -> M P B) s a s' :
  m s = Some (a, s') -> bind m k s = k a s'.
Proof. intros E. unfold bind. rewrite E. reflexivity. Qed.

Lemma hw_after_app (h : machine P) e1 e2 :
  hw_after h (e1 ++ e2) = hw_after (hw_after h e1) e2.
Proof.
  revert h. induction e1 as [|[o v] e1 IH]; intros h; cbn; [reflexivity|apply IH].
Qed.

Lemma genuine_app (h : machine P) e1 e2 :
  genuine h (e1 ++ e2) <-> genuine h e1 /\ genuine (hw_after h e1) e2.
Proof.
  revert h. induction e1 as [|[o v] e1 IH]; intros h; cbn; [tauto|].
  rewrite IH. tauto.
Qed.

Lemma after_refl s : after s [] s.
Proof. unfold after. rewrite app_nil_r. cbn. auto 10. Qed.

Lemma after_trans s s1 s2 e1 e2 :
  after s e1 s1 -> after s1 e2 s2 -> after s (e1 ++ e2) s2.
Proof.
  unfold after. intros (T1 & B1 & V1 & D1 & G1 & H1) (T2 & B2 & V2 & D2 & G2 & H2).
  rewrite T2, T1, B2, B1, V2, V1, D2, D1, app_assoc, hw_after_app, genuine_app.
  rewrite H1 in G2, H2. auto 10.
Qed.

Lemma call_after o s :
  exists v s', call P o s = Some (v, s') /\ after s [Ev o v] s' /\
               v = visible o (fst (exec P o (hw s))) /\
               hw s' = snd (exec P o (hw s)).
Proof.
  unfold call. destruct (exec P o (hw s)) as [raw h'] eqn:Hex.
  eexists _, _. split; [reflexivity|]. unfold after. cbn.
  rewrite Hex. cbn. repeat split.
Qed.

Lemma unit_call_after o s :
  visible o (fst (exec P o (hw s))) = 0 ->
  exists s', (bind (call P o) (fun _ => ret tt)) s = Some (tt, s') /\
             after s [Ev o 0] s' /\ hw s' = snd (exec P o (hw s)).
Proof.
  intros Hv. destruct (call_after o s) as (v & s' & E & A & -> & H).
  exists s'. rewrite (bind_some _ _ _ _ _ E), <- Hv. auto.
Qed.

Lemma dsb_after s :
  exists s', dsb P s = Some (tt, s') /\ after s [Ev OpDsb 0] s' /\
             hw s' = snd (exec P OpDsb (hw s)).
Proof. apply unit_call_after. reflexivity. Qed.

Lemma FlushDataCache_after s :
  exists s', FlushDataCache P s = Some (tt, s') /\
             after s [Ev OpFlushDataCache 0] s' /\
             hw s' = snd (exec P OpFlushDataCache (hw s)).
Proof. apply unit_call_after. reflexivity. Qed.

Lemma readPMUCycleCounter_after s :
  exists v s', readPMUCycleCounter P s = Some (v, s') /\
               after s [Ev OpReadPMU v] s' /\ 0 <= v < 2 ^ 32 /\
               v = wrap32 (fst (exec P OpReadPMU (hw s))) /\
               hw s' = snd (exec P OpReadPMU (hw s)).
Proof.
  destruct (call_after OpReadPMU s) as (v & s' & E & A & Hv & H).
  exists v, s'. split; [exact E|]. split; [exact A|].
  split; [subst v; apply wrap32_range|]. split; [exact Hv|exact H].
Qed.

Lemma addr_target_ok i s :
  0 <= i < Z.of_nat (length (target s)) -> addr_target P i s = Some (i, s).
Proof.
  intros H. unfold addr_target.
  destruct (Z.leb_spec 0 i), (Z.ltb_spec i (Z.of_nat (length (target s)))); cbn; auto; lia.
Qed.

Lemma accessByte_after ptr s :
  0 <= ptr < Z.of_nat (length (target s)) ->
  exists b s', accessByte P ptr s = Some (b, s') /\
               after s [Ev (OpLoad ptr) 0] s' /\
               target s !! Z.to_nat ptr = Some b /\
               hw s' = snd (exec P (OpLoad ptr) (hw s)).
Proof.
  intros Hp. unfold accessByte.
  destruct (call_after (OpLoad ptr) s) as (v & s' & E & A & Hv & H).
  cbn in Hv. subst v.
  destruct (lookup_lt_is_Some_2 (target s) (Z.to_nat ptr)) as [b Hb]; [lia|].
  exists b, s'. rewrite (bind_some _ _ _ _ _ E).
  pose proof A as (T & B & V & D & G & H'). rewrite B, Hb. auto.
Qed.

(** A timed load, whatever the code does with the two readings. *)
Lemma timed_after ptr s :
  0 <= ptr < Z.of_nat (length (target s)) ->
  exists m s', valid_sample m /\ after s (timed_events ptr m) s' /\
    forall A (k : Z -> Z -> M P A),
      bind (readPMUCycleCounter P) (fun start =>
        bind (accessByte P ptr) (fun _ =>
          bind (readPMUCycleCounter P) (fun end_ => k start end_))) s
      = k (fst m) (snd m) s'.
Proof.
  intros Hp.
  destruct (readPMUCycleCounter_after s) as (st & s1 & E1 & A1 & R1 & _).
  assert (Hp1 : 0 <= ptr < Z.of_nat (length (target s1))).
  { destruct A1 as (_ & -> & _). exact Hp. }
  destruct (accessByte_after ptr s1 Hp1) as (b & s2 & E2 & A2 & _).
  destruct (readPMUCycleCounter_after s2) as (en & s3 & E3 & A3 & R3 & _).
  exists (st, en), s3. split; [split; assumption|]. split.
  - exact (after_trans _ _ _ _ _ A1 (after_trans _ _ _ _ _ A2 A3)).
  - intros A k.
    rewrite (bind_some _ _ _ _ _ E1), (bind_some _ _ _ _ _ E2),
      (bind_some _ _ _ _ _ E3). reflexivity.
Qed.

Lemma after_target_length s evs s' :
  after s evs s' -> length (target s') = length (target s).
Proof. intros (_ & -> & _). reflexivity. Qed.

(** One calibration round: a hit sample and a miss sample, each added to
    its own sum. *)
Lemma calibration_round_run i sums s :
  0 < Z.of_nat (length (target s)) ->
  exists r s',
    valid_sample (fst r) /\ valid_sample (snd r) /\
    after s (hit_events (fst r) ++ miss_events (snd r)) s' /\
    calibration_round P i sums s
    = Some ((add64 (fst sums) (duration (fst r)),
             add64 (snd sums) (duration (snd r))), s').
Proof.
  intros Hlen. destruct sums as [hitSum missSum].
  assert (H0 : 0 <= 0 < Z.of_nat (length (target s))) by lia.
  destruct (accessByte_after 0 s H0) as (b1 & s1 & E1 & A1 & _).
  destruct (dsb_after s1) as (s2 & E2 & A2 & _).
  pose proof (after_trans _ _ _ _ _ A1 A2) as A12.
  destruct (timed_after 0 s2) as (mh & s3 & Vh & A3 & E3).
  { rewrite (after_target_length _ _ _ A12). exact H0. }
  pose proof (after_trans _ _ _ _ _ A12 A3) as A13.
  destruct (FlushDataCache_after s3) as (s4 & E4 & A4 & _).
  destruct (dsb_after s4) as (s5 & E5 & A5 & _).
  pose proof (after_trans _ _ _ _ _ A4 A5) as A45.
  destruct (timed_after 0 s5) as (mm & s6 & Vm & A6 & E6).
  { rewrite (after_target_length _ _ _ A45), (after_target_length _ _ _ A13).
    exact H0. }
  pose proof (after_trans _ _ _ _ _ A13 (after_trans _ _ _ _ _ A45 A6)) as A16.
  exists (mh, mm), s6. split; [exact Vh|]. split; [exact Vm|]. split.
  - unfold hit_events, miss_events. rewrite <- !app_assoc in A16 |- *. exact A16.
  - unfold calibration_round.
    rewrite (bind_some _ _ _ _ _ (addr_target_ok 0 s H0)).
    rewrite (bind_some _ _ _ _ _ E1), (bind_some _ _ _ _ _ E2), E3.
    rewrite (bind_some _ _ _ _ _ E4), (bind_some _ _ _ _ _ E5), E6.
    reflexivity.
Qed.

(** The whole calibration loop. *)
Lemma calibration_loop_run n i sums s :
  0 < Z.of_nat (length (target s)) ->
  exists rounds s',
    length rounds = n /\
    Forall (fun r => valid_sample (fst r) /\ valid_sample (snd r)) rounds /\
    after s (calibration_events rounds) s' /\
    for_loop n i (calibration_round P) sums s
    = Some ((accumulate (map (fun r => duration (fst r)) rounds) (fst sums),
             accumulate (map (fun r => duration (snd r)) rounds) (snd sums)), s').
Proof.
  revert i sums s. induction n as [|n IH]; intros i sums s Hlen.
  - exists [], s. split; [reflexivity|]. split; [constructor|].
    split; [apply after_refl|]. destruct sums; reflexivity.
  - destruct (calibration_round_run i sums s Hlen) as (r & s1 & Vh & Vm & A1 & E1).
    destruct (IH (i + 1)
                (add64 (fst sums) (duration (fst r)),
                 add64 (snd sums) (duration (snd r))) s1)
      as (rounds & s' & Hn & Hv & A2 & E2).
    { rewrite (after_target_length _ _ _ A1). exact Hlen. }
    exists (r :: rounds), s'. split; [cbn; lia|].
    split; [constructor; auto|]. split.
    + exact (after_trans _ _ _ _ _ A1 A2).
    + cbn [for_loop]. rewrite (bind_some _ _ _ _ _ E1), E2. reflexivity.
Qed.
End Run.

(** ** The probing loop on any platform *)

Section Probe.
Context {P : Platform}.
Implicit Types (s : state P) (evs : list event).

Lemma simulateVictimAccess_after ptr b s :
  0 <= ptr < Z.of_nat (length (target s)) ->
  exists s', simulateVictimAccess P ptr b s = Some (tt, s') /\
             after s (victim_events ptr b) s'.
Proof.
  intros Hp. destruct b; cbn.
  - destruct (accessByte_after ptr s Hp) as (x & s' & E & A & _).
    exists s'. rewrite (bind_some _ _ _ _ _ E). auto.
  - exists s. split; [reflexivity|apply after_refl].
Qed.

Lemma read_pattern_ok line b s :
  0 <= line -> victimPattern s !! Z.to_nat line = Some b ->
  read_pattern P line s = Some (b, s).
Proof.
  intros H0 Hb. unfold read_pattern. rewrite Hb.
  destruct (Z.leb_spec 0 line); [reflexivity|lia].
Qed.

Lemma read_detected_ok line b s :
  0 <= line -> detected s !! Z.to_nat line = Some b ->
  read_detected P line s = Some (b, s).
Proof.
  intros H0 Hb. unfold read_detected. rewrite Hb.
  destruct (Z.leb_spec 0 line); [reflexivity|lia].
Qed.

(** One probe: the events in protocol order, and the verdict on the
    reload stored at the line's index. *)
Lemma probe_line_run lineSize thr line b s :
  0 <= line ->
  0 <= line * lineSize < Z.of_nat (length (target s)) ->
  victimPattern s !! Z.to_nat line = Some b ->
  line < Z.of_nat (length (detected s)) ->
  exists m s',
    valid_sample m /\
    probe_line P lineSize thr line tt s = Some (tt, s') /\
    trace s' = trace s ++ probe_events lineSize line b m /\
    target s' = target s /\
    victimPattern s' = victimPattern s /\
    detected s' = <[Z.to_nat line := verdict thr m]> (detected s) /\
    genuine (hw s) (probe_events lineSize line b m) /\
    hw s' = hw_after (hw s) (probe_events lineSize line b m).
Proof.
  intros H0 Hp Hb Hd.
  destruct (FlushDataCache_after s) as (s1 & E1 & A1 & _).
  destruct (dsb_after s1) as (s2 & E2 & A2 & _).
  pose proof (after_trans _ _ _ _ _ A1 A2) as A12.
  destruct (simulateVictimAccess_after (line * lineSize) b s2) as (s3 & E3 & A3).
  { rewrite (after_target_length _ _ _ A12). exact Hp. }
  pose proof (after_trans _ _ _ _ _ A12 A3) as A13.
  destruct (timed_after (line * lineSize) s3) as (m & s4 & Vm & A4 & E4).
  { rewrite (after_target_length _ _ _ A13). exact Hp. }
  pose proof (after_trans _ _ _ _ _ A13 A4) as (T & B & V & D & G & H).
  exists m, (mkState (hw s4) (trace s4) (target s4) (victimPattern s4)
               (<[Z.to_nat line := verdict thr m]> (detected s4))).
  split; [exact Vm|]. split.
  - unfold probe_line.
    rewrite (bind_some _ _ _ _ _ (addr_target_ok _ s Hp)).
    rewrite (bind_some _ _ _ _ _ E1), (bind_some _ _ _ _ _ E2).
    assert (Hb2 : victimPattern s2 !! Z.to_nat line = Some b).
    { destruct A12 as (_ & _ & -> & _). exact Hb. }
    rewrite (bind_some _ _ _ _ _ (read_pattern_ok _ _ s2 H0 Hb2)).
    rewrite (bind_some _ _ _ _ _ E3), E4.
    unfold write_detected. rewrite D.
    destruct (Z.leb_spec 0 line), (Z.ltb_spec line (Z.of_nat (length (detected s))));
      try lia.
    reflexivity.
  - cbn. rewrite T, B, V, D, H. unfold probe_events.
    rewrite <- !app_assoc in G |- *. auto 10.
Qed.

(** [n] probes starting at line [i]. *)
Lemma probe_loop_run lineSize thr n i s :
  0 < lineSize ->
  (i + n <= length (victimPattern s))%nat ->
  (i + n <= length (detected s))%nat ->
  Z.of_nat (i + n) * lineSize <= Z.of_nat (length (target s)) ->
  exists ms s',
    length ms = n /\
    Forall valid_sample ms /\
    for_loop n (Z.of_nat i) (probe_line P lineSize thr) tt s = Some (tt, s') /\
    trace s' = trace s
               ++ session_events lineSize (Z.of_nat i)
                    (take n (drop i (victimPattern s))) ms /\
    target s' = target s /\
    victimPattern s' = victimPattern s /\
    detected s' = take i (detected s) ++ map (verdict thr) ms
                  ++ drop (i + n) (detected s) /\
    genuine (hw s) (session_events lineSize (Z.of_nat i)
                      (take n (drop i (victimPattern s))) ms) /\
    hw s' = hw_after (hw s) (session_events lineSize (Z.of_nat i)
                               (take n (drop i (victimPattern s))) ms).
Proof.
  intros Hls. revert i s. induction n as [|n IH]; intros i s Hv Hd Ht.
  - exists [], s. split; [reflexivity|]. split; [constructor|].
    split; [reflexivity|]. rewrite take_0. cbn.
    rewrite app_nil_r, Nat.add_0_r, take_drop. auto 10.
  - destruct (lookup_lt_is_Some_2 (victimPattern s) i) as [b Hb]; [lia|].
    destruct (probe_line_run lineSize thr (Z.of_nat i) b s)
      as (m & s1 & Vm & E1 & T1 & B1 & V1 & D1 & G1 & H1).
    { lia. }
    { nia. }
    { rewrite Nat2Z.id. exact Hb. }
    { lia. }
    rewrite Nat2Z.id in D1.
    destruct (IH (S i) s1) as (ms & s' & Hn & Hms & E2 & T2 & B2 & V2 & D2 & G2 & H2).
    { rewrite V1. lia. }
    { rewrite D1, length_insert. lia. }
    { rewrite B1. replace (S i + n)%nat with (i + S n)%nat by lia. exact Ht. }
    exists (m :: ms), s'. split; [cbn; lia|]. split; [constructor; assumption|].
    split.
    + cbn [for_loop]. rewrite (bind_some _ _ _ _ _ E1).
      replace (Z.of_nat i + 1) with (Z.of_nat (S i)) by lia. exact E2.
    + rewrite V1, H1 in G2. rewrite V1, H1 in H2.
      rewrite T2, T1, B2, B1, V2, V1, D2, D1, H2.
      rewrite (drop_S _ _ _ Hb). cbn [take session_events].
      replace (Z.of_nat i + 1) with (Z.of_nat (S i)) by lia.
      rewrite genuine_app, hw_after_app.
      split; [|split; [reflexivity|split; [reflexivity|split; [|auto]]]].
      * rewrite <- app_assoc. reflexivity.
      * rewrite (take_S_r _ _ (verdict thr m)).
        2:{ apply list_lookup_insert_eq. lia. }
        rewrite take_insert_ge by lia.
        rewrite drop_insert_lt by lia.
        replace (S i + n)%nat with (i + S n)%nat by lia.
        cbn [map]. rewrite <- app_assoc. reflexivity.
Qed.
End Probe.

(** ** Scoring and the whole session on any platform *)

Section Session.
Context {P : Platform}.
Implicit Types (s : state P).

Lemma agreements_bound d p :
  0 <= agreements d p <= Z.of_nat (length d).
Proof.
  revert p. induction d as [|x d IH]; intros [|y p]; cbn [agreements length]; try lia.
  specialize (IH p). destruct (Bool.eqb x y); lia.
Qed.


(** The scoring loop reads both slices and changes nothing. *)
Lemma score_loop_run n i c s :
  (i + n <= length (detected s))%nat ->
  (i + n <= length (victimPattern s))%nat ->
  for_loop n (Z.of_nat i) (score_line P) c s
  = Some (c + agreements (take n (drop i (detected s)))
                         (take n (drop i (victimPattern s))), s).
Proof.
  revert i c. induction n as [|n IH]; intros i c Hd Hv.
  - cbn [for_loop take agreements]. unfold ret. rewrite Z.add_0_r. reflexivity.
  - destruct (lookup_lt_is_Some_2 (detected s) i) as [x Hx]; [lia|].
    destruct (lookup_lt_is_Some_2 (victimPattern s) i) as [y Hy]; [lia|].
    cbn [for_loop]. unfold score_line at 1.
    erewrite (bind_some (bind _ _)).
    2:{ erewrite bind_some.
        2:{ apply read_detected_ok; [lia|]. rewrite Nat2Z.id. exact Hx. }
        erewrite bind_some.
        2:{ apply read_pattern_ok; [lia|]. rewrite Nat2Z.id. exact Hy. }
        reflexivity. }
    replace (Z.of_nat i + 1) with (Z.of_nat (S i)) by lia.
    rewrite IH by lia.
    rewrite (drop_S _ _ _ Hx), (drop_S _ _ _ Hy). cbn [take agreements].
    do 2 f_equal. destruct (Bool.eqb x y); lia.
Qed.

Lemma score_run N s :
  Z.of_nat (length (detected s)) = N ->
  Z.of_nat (length (victimPattern s)) = N ->
  score P N s
  = Some (mkReport (agreements (detected s) (victimPattern s)) N
            (F64.mul (F64.div (F64.of_Z (agreements (detected s) (victimPattern s)))
                              (F64.of_Z N))
                     (F64.of_Z 100)), s).
Proof.
  intros Hd Hv. unfold score.
  erewrite bind_some.
  2:{ apply (score_loop_run (Z.to_nat N) 0 0 s); lia. }
  rewrite !drop_0, !take_ge by lia. reflexivity.
Qed.

(** The session: every line probed in order, the verdicts stored by index,
    the report computed from them, the inputs untouched. *)
Lemma runSession_run N lineSize thr s :
  0 < lineSize ->
  Z.of_nat (length (target s)) = N * lineSize ->
  Z.of_nat (length (victimPattern s)) = N ->
  exists ms s',
    length ms = length (victimPattern s) /\
    Forall valid_sample ms /\
    runSession P N lineSize thr s
    = Some (mkReport (agreements (map (verdict thr) ms) (victimPattern s)) N
              (F64.mul (F64.div (F64.of_Z (agreements (map (verdict thr) ms)
                                                      (victimPattern s)))
                                (F64.of_Z N))
                       (F64.of_Z 100)), s') /\
    trace s' = trace s ++ session_events lineSize 0 (victimPattern s) ms /\
    target s' = target s /\
    victimPattern s' = victimPattern s /\
    detected s' = map (verdict thr) ms /\
    genuine (hw s) (session_events lineSize 0 (victimPattern s) ms) /\
    hw s' = hw_after (hw s) (session_events lineSize 0 (victimPattern s) ms).
Proof.
  intros Hls Ht Hv.
  set (s0 := mkState (hw s) (trace s) (target s) (victimPattern s)
               (replicate (Z.to_nat N) false)).
  destruct (probe_loop_run lineSize thr (Z.to_nat N) 0 s0 Hls)
    as (ms & s1 & Hn & Hms & E1 & T1 & B1 & V1 & D1 & G1 & H1).
  { cbn. lia. }
  { cbn. rewrite length_replicate. lia. }
  { cbn. lia. }
  cbn [s0 hw trace target victimPattern detected] in T1, B1, V1, D1, G1, H1.
  rewrite drop_0, take_ge in T1, G1, H1 by lia.
  rewrite take_0, drop_ge, app_nil_r in D1 by (rewrite length_replicate; lia).
  cbn [app] in D1.
  exists ms, s1. split; [lia|]. split; [exact Hms|]. split; [|auto 10].
  assert (E0 : make_detected P N s = Some (tt, s0)).
  { unfold make_detected. destruct (Z.ltb_spec N 0); [lia|reflexivity]. }
  unfold runSession, probe_lines.
  rewrite (bind_some _ _ _ _ _ E0).
  change 0 with (Z.of_nat 0) at 1.
  rewrite (bind_some _ _ _ _ _ E1).
  rewrite (score_run N s1).
  - rewrite D1, V1. reflexivity.
  - rewrite D1, length_map. lia.
  - rewrite V1. exact Hv.
Qed.
End Session.

(** ** Facts about binary64 arithmetic *)

Module F64Facts.
Import F64.

Lemma digits2_size p : digits2_pos p = Pos.size p.
Proof. induction p as [p IH|p IH|]; cbn; [rewrite IH..|]; reflexivity. Qed.

Lemma digits2_log2 p : Z.pos (digits2_pos p) = Z.log2 (Z.pos p) + 1.
Proof. rewrite digits2_size. destruct p; cbn; lia. Qed.

Lemma Zdigits2_nonneg m : 0 <= Zdigits2 m.
Proof. destruct m; cbn; lia. Qed.

Lemma Zdigits2_bound m k : 0 <= m < 2 ^ k -> 0 <= k -> Zdigits2 m <= k.
Proof.
  intros [H0 Hk] Hk0. destruct m as [|p|p]; cbn; [lia| |lia].
  rewrite digits2_log2.
  assert (Z.log2 (Z.pos p) < k) by (apply Z.log2_lt_pow2; lia). lia.
Qed.

Lemma pos_lt_pow_digits p : Z.pos p < 2 ^ Z.pos (digits2_pos p).
Proof.
  rewrite digits2_log2.
  pose proof (Z.log2_spec (Z.pos p) ltac:(lia)) as [_ H].
  replace (Z.succ (Z.log2 (Z.pos p))) with (Z.log2 (Z.pos p) + 1) in H by lia.
  exact H.
Qed.

Lemma iter_xO_mul m d : Z.pos (Pos.iter xO m d) = Z.pos m * 2 ^ Z.pos d.
Proof.
  induction d as [|d IH] using Pos.peano_ind.
  - cbn. lia.
  - rewrite Pos.iter_succ, Pos2Z.inj_xO, IH, Pos2Z.inj_succ, Z.pow_succ_r by lia.
    lia.
Qed.

Lemma shr_iter_invariant (Q : shr_record -> Prop) :
  (forall x, Q x -> Q (shr_1 x)) ->
  forall p x, Q x -> Q (SpecFloat.iter_pos shr_1 p x).
Proof.
  intros Hf. induction p as [p IH|p IH|]; intros x Hx; cbn; auto.
Qed.

Lemma shr_1_bound b r : 0 <= shr_m r <= b -> 0 <= shr_m (shr_1 r) <= b.
Proof.
  destruct r as [m r s]. cbn [shr_m]. intros H.
  destruct m as [|[p|p|]|[p|p|]]; cbn; lia.
Qed.

Lemma shr_bound b r e n :
  0 <= shr_m r <= b -> 0 <= shr_m (fst (shr r e n)) <= b.
Proof.
  intros H. destruct n as [|p|p]; cbn; [exact H| |exact H].
  apply (shr_iter_invariant (fun x => 0 <= shr_m x <= b)); [|exact H].
  intros x. apply shr_1_bound.
Qed.

Lemma shr_1_digits r :
  Zdigits2 (shr_m (shr_1 r)) = Z.max 0 (Zdigits2 (shr_m r) - 1).
Proof. destruct r as [[|[p|p|]|[p|p|]] r s]; cbn; lia. Qed.

Lemma shr_iter_digits p r :
  Zdigits2 (shr_m (SpecFloat.iter_pos shr_1 p r))
  = Z.max 0 (Zdigits2 (shr_m r) - Z.pos p).
Proof.
  revert r. induction p as [p IH|p IH|]; intros r; cbn [SpecFloat.iter_pos];
    rewrite ?IH, ?shr_1_digits; lia.
Qed.

Lemma Zdigits2_positive m : 0 < m -> 0 < Zdigits2 m.
Proof. destruct m; cbn; lia. Qed.

Lemma Zdigits2_positive_inv m : 0 <= m -> 0 < Zdigits2 m -> 0 < m.
Proof. destruct m; cbn; lia. Qed.

Lemma shr_record_of_loc_m m l : shr_m (shr_record_of_loc m l) = m.
Proof. destruct l as [|[]]; reflexivity. Qed.

Lemma shr_fexp_bound m e l :
  0 <= m -> 0 <= shr_m (fst (shr_fexp prec emax m e l)) <= m.
Proof.
  intros H. unfold shr_fexp. apply shr_bound.
  rewrite shr_record_of_loc_m. lia.
Qed.

Lemma shr_fexp_exponent m e l :
  snd (shr_fexp prec emax m e l)
  = Z.max e (fexp prec emax (Zdigits2 m + e)).
Proof.
  unfold shr_fexp, shr.
  destruct (fexp prec emax (Zdigits2 m + e) - e) as [|p|p] eqn:E; cbn [snd]; lia.
Qed.

Lemma round_nearest_even_bound m l :
  0 <= m -> m <= round_nearest_even m l <= m + 1.
Proof.
  intros H. unfold round_nearest_even.
  destruct l as [|[]]; try lia. destruct (Z.even m); lia.
Qed.

Lemma nonneg_leb x : nonneg x = true -> leb zero x = true.
Proof. destruct x as [s|[]| |[] m e]; cbn; congruence. Qed.

Lemma binary_round_aux_nonneg m e l :
  0 <= m -> nonneg (binary_round_aux prec emax false m e l) = true.
Proof.
  intros H. unfold binary_round_aux.
  destruct (shr_fexp prec emax m e l) as [mrs' e'] eqn:E1.
  pose proof (shr_fexp_bound m e l H) as B1. rewrite E1 in B1. cbn [fst] in B1.
  set (m1 := round_nearest_even (shr_m mrs') (loc_of_shr_record mrs')).
  pose proof (round_nearest_even_bound (shr_m mrs') (loc_of_shr_record mrs')
                ltac:(lia)) as B2.
  fold m1 in B2.
  destruct (shr_fexp prec emax m1 e' loc_Exact) as [mrs'' e''] eqn:E2.
  pose proof (shr_fexp_bound m1 e' loc_Exact ltac:(lia)) as B3.
  rewrite E2 in B3. cbn [fst] in B3.
  destruct (shr_m mrs'') as [|p|p]; [reflexivity| |lia].
  destruct (e'' <=? emax - prec); reflexivity.
Qed.

(** Rounding a mantissa below [2 ^ 64] at a non-positive exponent never
    overflows. *)
Lemma binary_round_aux_finite m e l :
  0 <= m < 2 ^ 64 -> e <= 0 ->
  finite (binary_round_aux prec emax false m e l) = true.
Proof.
  intros H He. unfold binary_round_aux.
  destruct (shr_fexp prec emax m e l) as [mrs' e'] eqn:E1.
  pose proof (shr_fexp_bound m e l ltac:(lia)) as B1.
  pose proof (shr_fexp_exponent m e l) as X1.
  rewrite E1 in B1, X1. cbn [fst snd] in B1, X1.
  set (m1 := round_nearest_even (shr_m mrs') (loc_of_shr_record mrs')).
  pose proof (round_nearest_even_bound (shr_m mrs') (loc_of_shr_record mrs')
                ltac:(lia)) as B2.
  fold m1 in B2.
  destruct (shr_fexp prec emax m1 e' loc_Exact) as [mrs'' e''] eqn:E2.
  pose proof (shr_fexp_bound m1 e' loc_Exact ltac:(lia)) as B3.
  pose proof (shr_fexp_exponent m1 e' loc_Exact) as X2.
  rewrite E2 in B3, X2. cbn [fst snd] in B3, X2.
  pose proof (Zdigits2_bound m 64 H ltac:(lia)) as D0.
  pose proof (Zdigits2_nonneg m) as D0'.
  assert (D1 : Zdigits2 m1 <= 65).
  { apply Zdigits2_bound; [|lia]. split; [lia|].
    change (2 ^ 65) with (2 * 2 ^ 64). lia. }
  pose proof (Zdigits2_nonneg m1) as D1'.
  unfold fexp, emin, prec, emax in *.
  destruct (shr_m mrs'') as [|p|p]; [reflexivity| |lia].
  destruct (Z.leb_spec e'' (1024 - 53)); [reflexivity|lia].
Qed.

Lemma shl_align_bound m e e' :
  let '(mz, ez) := shl_align m e e' in
  ez = Z.min e e' /\ Z.pos mz = Z.pos m * 2 ^ (e - ez).
Proof.
  unfold shl_align. destruct (e' - e) as [|d|d] eqn:E.
  - split; [lia|]. replace (e - e) with 0 by lia. lia.
  - split; [lia|]. replace (e - e) with 0 by lia. lia.
  - split; [lia|]. rewrite iter_xO_mul. do 2 f_equal. lia.
Qed.

Lemma of_Z_nonneg z : 0 <= z -> nonneg (of_Z z) = true.
Proof.
  intros H. destruct z as [|p|p]; [reflexivity| |lia].
  unfold of_Z, binary_normalize, binary_round.
  destruct (shl_align p 0 _) as [mz ez].
  apply binary_round_aux_nonneg. lia.
Qed.

(** Above the smallest exponent, the shift to the canonical exponent
    keeps a nonzero mantissa nonzero. *)
Lemma shr_fexp_positive m e l :
  0 < m -> emin prec emax <= e ->
  0 < shr_m (fst (shr_fexp prec emax m e l)).
Proof.
  intros Hm He.
  apply Zdigits2_positive_inv; [apply shr_fexp_bound; lia|].
  pose proof (Zdigits2_positive m Hm) as D.
  unfold shr_fexp, shr.
  destruct (fexp prec emax (Zdigits2 m + e) - e) as [|p|p] eqn:E; cbn [fst];
    rewrite ?shr_iter_digits, shr_record_of_loc_m; try exact D.
  unfold fexp, prec in *. lia.
Qed.

Lemma binary_round_aux_positive m e l :
  0 < m -> emin prec emax <= e ->
  positive (binary_round_aux prec emax false m e l) = true.
Proof.
  intros Hm He. unfold binary_round_aux.
  destruct (shr_fexp prec emax m e l) as [mrs' e'] eqn:E1.
  pose proof (shr_fexp_positive m e l Hm He) as B1.
  pose proof (shr_fexp_exponent m e l) as X1.
  rewrite E1 in B1, X1. cbn [fst snd] in B1, X1.
  set (m1 := round_nearest_even (shr_m mrs') (loc_of_shr_record mrs')).
  pose proof (round_nearest_even_bound (shr_m mrs') (loc_of_shr_record mrs')
                ltac:(lia)) as B2.
  fold m1 in B2.
  destruct (shr_fexp prec emax m1 e' loc_Exact) as [mrs'' e''] eqn:E2.
  pose proof (shr_fexp_positive m1 e' loc_Exact ltac:(lia) ltac:(lia)) as B3.
  rewrite E2 in B3. cbn [fst] in B3.
  destruct (shr_m mrs'') as [|p|p]; [lia| |lia].
  destruct (e'' <=? emax - prec); reflexivity.
Qed.

Lemma of_Z_positive z : 0 < z -> positive (of_Z z) = true.
Proof.
  intros H. destruct z as [|p|p]; [lia| |lia].
  unfold of_Z, binary_normalize, binary_round.
  pose proof (shl_align_bound p 0 (fexp prec emax (Z.pos (digits2_pos p) + 0))) as B.
  destruct (shl_align p 0 _) as [mz ez]. destruct B as [Be Bm].
  apply binary_round_aux_positive; [lia|].
  unfold fexp, emin, prec, emax in *. lia.
Qed.

Lemma of_Z_finite z : 0 <= z < 2 ^ 64 -> finite (of_Z z) = true.
Proof.
  intros H. destruct z as [|p|p]; [reflexivity| |lia].
  unfold of_Z, binary_normalize, binary_round.
  pose proof (shl_align_bound p 0 (fexp prec emax (Z.pos (digits2_pos p) + 0))) as B.
  destruct (shl_align p 0 _) as [mz ez]. destruct B as [Be Bm].
  apply binary_round_aux_finite; [|lia].
  split; [lia|]. rewrite Bm.
  pose proof (pos_lt_pow_digits p) as Hp.
  assert (Hd : 0 < Z.pos (digits2_pos p)) by lia.
  unfold fexp, emin, prec, emax in Be.
  destruct (Z.le_gt_cases 0 (Z.pos (digits2_pos p) + 0 - 53)) as [Hbig|Hsmall].
  - replace (0 - ez) with 0 by lia. lia.
  - replace (0 - ez) with (53 - Z.pos (digits2_pos p)) by lia.
    assert (Z.pos p * 2 ^ (53 - Z.pos (digits2_pos p)) < 2 ^ 53).
    { replace 53 with (Z.pos (digits2_pos p) + (53 - Z.pos (digits2_pos p))) at 2
        by lia.
      rewrite Z.pow_add_r by lia.
      apply Z.mul_lt_mono_pos_r; [apply Z.pow_pos_nonneg; lia|exact Hp]. }
    assert (2 ^ 53 < 2 ^ 64) by (apply Z.pow_lt_mono_r; lia). lia.
Qed.

(** A non-negative finite value divided by a positive one is not NaN and
    not negative. *)
Lemma div_nonneg x y :
  nonneg x = true -> finite x = true -> positive y = true ->
  nonneg (div x y) = true.
Proof.
  destruct x as [sx|sx| |sx mx ex], y as [sy|sy| |sy my ey];
    cbn [nonneg finite positive]; intros Hx Hf Hy; try discriminate;
    repeat match goal with
           | H : negb ?b = true |- _ => destruct b; [discriminate H|clear H]
           end;
    try (destruct sx; reflexivity); try reflexivity.
  unfold div, SFdiv. cbn [xorb].
  destruct (SFdiv_core_binary prec emax (Z.pos mx) ex (Z.pos my) ey)
    as [[mz ez] lz] eqn:E.
  apply binary_round_aux_nonneg.
  unfold SFdiv_core_binary in E.
  set (sh := ex - ey - _) in E.
  set (m' := match sh with Z.pos _ => Z.shiftl (Z.pos mx) sh | 0 => Z.pos mx
                        | Z.neg _ => 0 end) in E.
  assert (Hm' : 0 <= m').
  { subst m'. destruct sh; try lia. apply Z.shiftl_nonneg. lia. }
  pose proof (Z_div_mod m' (Z.pos my) ltac:(lia)) as Hdm.
  destruct (Z.div_eucl m' (Z.pos my)) as [q r]. injection E as <- _ _.
  nia.
Qed.
Lemma pow_digits_le p : 2 ^ (Z.pos (digits2_pos p) - 1) <= Z.pos p.
Proof.
  rewrite digits2_log2.
  pose proof (Z.log2_spec (Z.pos p) ltac:(lia)) as [H _].
  replace (Z.log2 (Z.pos p) + 1 - 1) with (Z.log2 (Z.pos p)) by lia. exact H.
Qed.

Lemma canonical_digits m e :
  canonical_mantissa prec emax m e = true ->
  Z.pos (digits2_pos m) <= 53 /\ -1074 <= e /\
  (-1074 < e -> Z.pos (digits2_pos m) = 53).
Proof.
  unfold canonical_mantissa, fexp, emin, prec, emax.
  intros H%Z.eqb_eq. lia.
Qed.

(** Among canonical mantissas the exponent decides the order. *)
Lemma units_lt_of_exponent m1 e1 m2 e2 :
  canonical_mantissa prec emax m1 e1 = true ->
  canonical_mantissa prec emax m2 e2 = true ->
  e1 < e2 ->
  Z.pos m1 * 2 ^ (e1 - emin prec emax) < Z.pos m2 * 2 ^ (e2 - emin prec emax).
Proof.
  intros C1 C2 He.
  destruct (canonical_digits m1 e1 C1) as (D1 & L1 & _).
  destruct (canonical_digits m2 e2 C2) as (_ & _ & D2).
  specialize (D2 ltac:(lia)).
  pose proof (pos_lt_pow_digits m1) as U1.
  pose proof (pow_digits_le m2) as U2. rewrite D2 in U2.
  assert (U1' : Z.pos m1 < 2 ^ 53).
  { eapply Z.lt_le_trans; [exact U1|]. apply Z.pow_le_mono_r; lia. }
  change (emin prec emax) with (-1074).
  replace (e2 - -1074) with ((e1 - -1074) + (e2 - e1)) by lia.
  rewrite Z.pow_add_r by lia.
  assert (HA : 0 < 2 ^ (e1 - -1074)) by (apply Z.pow_pos_nonneg; lia).
  assert (HK : 2 ^ 1 <= 2 ^ (e2 - e1)) by (apply Z.pow_le_mono_r; lia).
  change (2 ^ 1) with 2 in HK. change (2 ^ (53 - 1)) with (2 ^ 52) in U2.
  change (2 ^ 53) with (2 * 2 ^ 52) in U1'.
  generalize dependent (2 ^ 52). generalize dependent (2 ^ (e2 - e1)).
  generalize dependent (2 ^ (e1 - -1074)). intros A HA K HK c U2 U1'.
  apply Z.lt_le_trans with (2 * c * A); [nia|].
  apply Z.le_trans with (2 * Z.pos m2 * A); [nia|]. nia.
Qed.

Lemma compare_cont_Eq m1 m2 : Pos.compare_cont Eq m1 m2 = (Z.pos m1 ?= Z.pos m2).
Proof. reflexivity. Qed.

(** On well-formed finite floats, [ltb] is the order of the values. *)
Lemma ltb_value_lt x y :
  valid x = true -> valid y = true -> finite x = true -> finite y = true ->
  ltb x y = true <-> value_lt x y.
Proof.
  assert (Hpow : forall m e, canonical_mantissa prec emax m e = true ->
                             0 < 2 ^ (e - emin prec emax)).
  { intros m e C. destruct (canonical_digits _ _ C) as (_ & L & _).
    apply Z.pow_pos_nonneg; unfold emin, prec, emax; lia. }
  destruct x as [sx|sx| |sx mx ex], y as [sy|sy| |sy my ey];
    cbn [finite]; try discriminate; intros Vx Vy _ _;
    unfold ltb, SFltb, value_lt; cbn [units SFcompare];
    cbn in Vx, Vy;
    try (apply andb_prop in Vx as [Cx _]; pose proof (Hpow _ _ Cx) as Px);
    try (apply andb_prop in Vy as [Cy _]; pose proof (Hpow _ _ Cy) as Py).
  - split; [discriminate|lia].
  - destruct sy; rewrite <- ?Pos2Z.opp_pos, ?Z.mul_opp_l;
      split; intros Hh; first [reflexivity|discriminate Hh|nia].
  - destruct sx; rewrite <- ?Pos2Z.opp_pos, ?Z.mul_opp_l;
      split; intros Hh; first [reflexivity|discriminate Hh|nia].
  - pose proof (units_lt_of_exponent mx ex my ey Cx Cy) as Hlt.
    pose proof (units_lt_of_exponent my ey mx ex Cy Cx) as Hgt.
    rewrite compare_cont_Eq.
    destruct sx, sy; rewrite <- ?Pos2Z.opp_pos, ?Z.mul_opp_l;
      try (split; intros Hh; first [reflexivity|discriminate Hh|nia]);
      (destruct (Z.compare_spec ex ey) as [->|He|He];
       [destruct (Z.compare_spec (Z.pos mx) (Z.pos my)) as [Hm|Hm|Hm]; cbn;
        split; intros Hh; first [reflexivity|discriminate Hh|nia]
       |specialize (Hlt He); split; intros Hh;
        first [reflexivity|discriminate Hh|lia]
       |specialize (Hgt He); split; intros Hh;
        first [reflexivity|discriminate Hh|lia]]).
Qed.
(** An integer below [2 ^ 53] converts without rounding. *)
Lemma of_Z_exact z :
  0 <= z < 2 ^ 53 ->
  valid (of_Z z) = true /\ finite (of_Z z) = true /\
  units (of_Z z) = Some (z * 2 ^ 1074).
Proof.
  intros H. destruct z as [|p|p]; [repeat split| |lia].
  unfold of_Z, binary_normalize, binary_round.
  pose proof (shl_align_bound p 0 (fexp prec emax (Z.pos (digits2_pos p) + 0))) as B.
  destruct (shl_align p 0 _) as [mz ez]. destruct B as [Be Bm].
  pose proof (Zdigits2_bound (Z.pos p) 53 H ltac:(lia)) as Dp. cbn [Zdigits2] in Dp.
  assert (Hez : ez = Z.pos (digits2_pos p) - 53).
  { unfold fexp, emin, prec, emax in Be. lia. }
  assert (Hmz : Z.pos (digits2_pos mz) = 53).
  { rewrite digits2_log2, Bm, Z.log2_mul_pow2 by lia.
    rewrite (digits2_log2 p) in Hez. lia. }
  unfold binary_round_aux, shr_fexp. cbn [Zdigits2 shr_record_of_loc].
  rewrite Hmz.
  replace (fexp prec emax (53 + ez) - ez) with 0
    by (unfold fexp, emin, prec, emax; lia).
  cbn [shr loc_of_shr_record shr_m round_nearest_even Zdigits2 shr_record_of_loc].
  rewrite Hmz.
  replace (fexp prec emax (53 + ez) - ez) with 0
    by (unfold fexp, emin, prec, emax; lia).
  cbn [shr shr_m].
  destruct (Z.leb_spec ez (emax - prec)) as [_|Hbad];
    [|unfold emax, prec in Hbad; lia].
  split; [|split; [reflexivity|]].
  - unfold valid, valid_binary, bounded, canonical_mantissa. rewrite Hmz.
    apply andb_true_intro. split.
    + apply Z.eqb_eq. unfold fexp, emin, prec, emax. lia.
    + apply Z.leb_le. unfold emax, prec. lia.
  - cbn [units]. f_equal. rewrite Bm. change (emin prec emax) with (-1074).
    rewrite <- Z.mul_assoc, <- Z.pow_add_r by lia. do 2 f_equal. lia.
Qed.

(** Between integers below [2 ^ 53], the comparison of the converted
    values is the comparison of the integers. *)
Lemma ltb_of_Z a b :
  0 <= a < 2 ^ 53 -> 0 <= b < 2 ^ 53 ->
  ltb (of_Z a) (of_Z b) = (a <? b).
Proof.
  intros Ha Hb.
  destruct (of_Z_exact a Ha) as (Va & Fa & Ua).
  destruct (of_Z_exact b Hb) as (Vb & Fb & Ub).
  pose proof (ltb_value_lt _ _ Va Vb Fa Fb) as Hiff.
  unfold value_lt in Hiff. rewrite Ua, Ub in Hiff.
  assert (0 < 2 ^ 1074) by (apply Z.pow_pos_nonneg; lia).
  destruct (Z.ltb_spec a b) as [Hlt|Hge].
  - apply Hiff. nia.
  - destruct (ltb (of_Z a) (of_Z b)); [|reflexivity].
    assert (a * 2 ^ 1074 < b * 2 ^ 1074) by (apply Hiff; reflexivity). nia.
Qed.
End F64Facts.

(** ** Calibration *)

Lemma valid_sample_unsigned m : valid_sample m -> unsigned_difference m.
Proof.
  intros [Hs He]. unfold unsigned_difference.
  split; [reflexivity|]. split; [apply sub32_range|]. unfold duration. split.
  - intros H. apply sub32_no_wrap; lia.
  - intros H. rewrite sub32_wrapped by lia. lia.
Qed.

Lemma durations_range rounds :
  Forall (fun r => valid_sample (fst r) /\ valid_sample (snd r)) rounds ->
  Forall (fun d => 0 <= d <= 2 ^ 32 - 1) (hit_durations rounds) /\
  Forall (fun d => 0 <= d <= 2 ^ 32 - 1) (miss_durations rounds).
Proof.
  unfold hit_durations, miss_durations.
  induction 1 as [|r rounds [Hh Hm] _ [IH1 IH2]]; cbn [map].
  - split; constructor.
  - pose proof (sub32_range (snd (fst r)) (fst (fst r))).
    pose proof (sub32_range (snd (snd r)) (fst (snd r))).
    split; constructor; unfold duration; auto; lia.
Qed.

Lemma calibration_sums_run {P : Platform} (s : state P) samples :
  0 < Z.of_nat (length (target s)) ->
  exists rounds s',
    length rounds = Z.to_nat samples /\
    Forall (fun r => valid_sample (fst r) /\ valid_sample (snd r)) rounds /\
    after s (calibration_events rounds) s' /\
    calibration_sums P samples s
    = Some ((accumulate (hit_durations rounds) 0,
             accumulate (miss_durations rounds) 0), s').
Proof.
  intros Hlen. unfold calibration_sums.
  apply (calibration_loop_run (Z.to_nat samples) 0 (0, 0) s Hlen).
Qed.

(** C2. For every sample count of at least one, the calibration runs to
    completion, takes that many hit measurements and that many miss
    measurements (one of each per round, as the trace shows), adds every hit
    duration to one sum and every miss duration to another, and returns
    [hitAvg = float64(hitSum) / float64(samples)],
    [missAvg = float64(missSum) / float64(samples)], both at least zero, and
    [threshold = (hitAvg + missAvg) / 2.0].  The sums are the plain sums of
    the measured durations, as [uint64] values (modulo [2 ^ 64]); up to
    [2 ^ 32] samples they are the plain sums themselves. *)
Theorem calibrate_averages_and_midpoint (P : Platform) (s : state P) (samples : Z) :
  1 <= samples ->
  0 < Z.of_nat (length (target s)) ->
  exists rounds cal s',
    calibrate P samples s = Some (cal, s') /\
    Z.of_nat (length rounds) = samples /\
    after s (calibration_events rounds) s' /\
    hitAvg cal = F64.div (F64.of_Z (total_of (hit_durations rounds) mod 2 ^ 64))
                         (F64.of_Z samples) /\
    missAvg cal = F64.div (F64.of_Z (total_of (miss_durations rounds) mod 2 ^ 64))
                          (F64.of_Z samples) /\
    (samples <= 2 ^ 32 ->
     hitAvg cal = F64.div (F64.of_Z (total_of (hit_durations rounds)))
                          (F64.of_Z samples) /\
     missAvg cal = F64.div (F64.of_Z (total_of (miss_durations rounds)))
                           (F64.of_Z samples)) /\
    F64.leb F64.zero (hitAvg cal) = true /\
    F64.leb F64.zero (missAvg cal) = true /\
    threshold cal = F64.div (F64.add (hitAvg cal) (missAvg cal)) (F64.of_Z 2).
Proof.
  intros Hn Hlen.
  destruct (calibration_sums_run s samples Hlen) as (rounds & s' & Hr & V & A & E).
  eexists rounds, _, s'. split.
  { unfold calibrate. rewrite (bind_some _ _ _ _ _ E). reflexivity. }
  split; [lia|]. split; [exact A|].
  cbn [calibration_result hitAvg missAvg threshold fst snd].
  assert (Hq : forall ds, F64.leb F64.zero
                 (F64.div (F64.of_Z (accumulate ds 0)) (F64.of_Z samples)) = true).
  { intros ds. pose proof (accumulate_range ds 0 ltac:(lia)) as Hs.
    apply F64Facts.nonneg_leb, F64Facts.div_nonneg.
    - apply F64Facts.of_Z_nonneg. lia.
    - apply F64Facts.of_Z_finite. lia.
    - apply F64Facts.of_Z_positive. lia. }
  split; [rewrite accumulate_total; reflexivity|].
  split; [rewrite accumulate_total; reflexivity|].
  split.
  { intros Hle.
    destruct (durations_range rounds V) as [Rh Rm].
    pose proof (total_of_bound _ _ Rh) as Bh.
    pose proof (total_of_bound _ _ Rm) as Bm.
    unfold hit_durations, miss_durations in Bh, Bm. rewrite length_map in Bh, Bm.
    fold (hit_durations rounds) in Bh. fold (miss_durations rounds) in Bm.
    assert (Hlt : Z.of_nat (length rounds) * (2 ^ 32 - 1) < 2 ^ 64).
    { rewrite Hr, Z2Nat.id by lia. change (2 ^ 64) with (2 ^ 32 * 2 ^ 32). nia. }
    rewrite !accumulate_total, !Z.mod_small by lia. split; reflexivity. }
  split; [apply Hq|]. split; [apply Hq|]. reflexivity.
Qed.

Lemma calibrate_averages_and_midpoint_witness :
  exists rounds cal s',
    calibrate scenario 100 scenario_state = Some (cal, s') /\
    Z.of_nat (length rounds) = 100 /\
    after scenario_state (calibration_events rounds) s' /\
    hitAvg cal = F64.div (F64.of_Z (total_of (hit_durations rounds) mod 2 ^ 64))
                         (F64.of_Z 100) /\
    missAvg cal = F64.div (F64.of_Z (total_of (miss_durations rounds) mod 2 ^ 64))
                          (F64.of_Z 100) /\
    (100 <= 2 ^ 32 ->
     hitAvg cal = F64.div (F64.of_Z (total_of (hit_durations rounds)))
                          (F64.of_Z 100) /\
     missAvg cal = F64.div (F64.of_Z (total_of (miss_durations rounds)))
                           (F64.of_Z 100)) /\
    F64.leb F64.zero (hitAvg cal) = true /\
    F64.leb F64.zero (missAvg cal) = true /\
    threshold cal = F64.div (F64.add (hitAvg cal) (missAvg cal)) (F64.of_Z 2).
Proof.
  apply (calibrate_averages_and_midpoint scenario scenario_state 100);
    [lia|vm_compute; reflexivity].
Defined.

(** C10. Every measured duration is the difference of two [uint32] counter
    readings modulo [2 ^ 32]: it lies in [0, 2 ^ 32), it is [end - start]
    when the readings are in order, and [2 ^ 32 - (start - end)], a positive
    number, when the second reading is below the first.  The calibration
    widens each duration to 64 bits before adding it, so for any sample
    count up to [2 ^ 32] (the code uses 100) the two sums are the plain sums
    of the durations, below [2 ^ 64]: the accumulators never wrap.  The
    session's reload durations are differences of the same kind. *)
Theorem durations_unsigned_sums_exact (P : Platform) (s : state P) (samples : Z) :
  0 <= samples <= 2 ^ 32 ->
  0 < Z.of_nat (length (target s)) ->
  exists rounds s',
    calibration_sums P samples s
    = Some ((total_of (hit_durations rounds), total_of (miss_durations rounds)), s') /\
    Z.of_nat (length rounds) = samples /\
    after s (calibration_events rounds) s' /\
    Forall (fun r => unsigned_difference (fst r) /\ unsigned_difference (snd r))
      rounds /\
    0 <= total_of (hit_durations rounds) < 2 ^ 64 /\
    0 <= total_of (miss_durations rounds) < 2 ^ 64 /\
    (forall m : sample, valid_sample m -> unsigned_difference m).
Proof.
  intros Hn Hlen.
  destruct (calibration_sums_run s samples Hlen) as (rounds & s' & Hr & V & A & E).
  destruct (durations_range rounds V) as [Rh Rm].
  pose proof (total_of_bound _ _ Rh) as Bh.
  pose proof (total_of_bound _ _ Rm) as Bm.
  unfold hit_durations, miss_durations in Bh, Bm. rewrite length_map in Bh, Bm.
  fold (hit_durations rounds) in Bh. fold (miss_durations rounds) in Bm.
  assert (Hlt : Z.of_nat (length rounds) * (2 ^ 32 - 1) < 2 ^ 64).
  { rewrite Hr, Z2Nat.id by lia. change (2 ^ 64) with (2 ^ 32 * 2 ^ 32). nia. }
  exists rounds, s'. split.
  { rewrite E. do 2 f_equal. f_equal.
    - rewrite accumulate_exact; try lia.
      eapply Forall_impl; [exact Rh|]. cbn. intros; lia.
    - rewrite accumulate_exact; try lia.
      eapply Forall_impl; [exact Rm|]. cbn. intros; lia. }
  split; [lia|]. split; [exact A|]. split.
  { eapply Forall_impl; [exact V|]. cbn.
    intros r [Vh Vm]. split; apply valid_sample_unsigned; assumption. }
  split; [lia|]. split; [lia|]. exact valid_sample_unsigned.
Qed.

Lemma durations_unsigned_sums_exact_witness :
  exists rounds s',
    calibration_sums scenario 100 scenario_state
    = Some ((total_of (hit_durations rounds), total_of (miss_durations rounds)), s') /\
    Z.of_nat (length rounds) = 100 /\
    after scenario_state (calibration_events rounds) s' /\
    Forall (fun r => unsigned_difference (fst r) /\ unsigned_difference (snd r))
      rounds /\
    0 <= total_of (hit_durations rounds) < 2 ^ 64 /\
    0 <= total_of (miss_durations rounds) < 2 ^ 64 /\
    (forall m : sample, valid_sample m -> unsigned_difference m).
Proof.
  apply (durations_unsigned_sums_exact scenario scenario_state 100);
    [vm_compute; split; discriminate|vm_compute; reflexivity].
Defined.

(** ** The detection session *)

(** C1. For a buffer of [N] lines of [lineSize] bytes, a pattern of [N]
    booleans and any threshold, the session runs to completion and probes
    the lines 0, 1, ..., N-1 in this order.  The probe of line [i] flushes
    the cache, issues the barrier, lets the victim load offset
    [i * lineSize] exactly when [pattern[i]] holds, and times one reload of
    that offset; [detected[i]] is the verdict "reload duration < threshold"
    on the two counter readings of that reload, so the result has one entry
    per pattern entry. *)
Theorem session_detects_by_index (P : Platform) (s : state P)
    (N lineSize : Z) (thr : F64.t) :
  0 < lineSize ->
  Z.of_nat (length (target s)) = N * lineSize ->
  Z.of_nat (length (victimPattern s)) = N ->
  exists ms rep s',
    runSession P N lineSize thr s = Some (rep, s') /\
    length ms = length (victimPattern s) /\
    length (detected s') = length (victimPattern s) /\
    trace s' = trace s ++ session_events lineSize 0 (victimPattern s) ms /\
    genuine (hw s) (session_events lineSize 0 (victimPattern s) ms) /\
    forall i m, ms !! i = Some m ->
      detected s' !! i = Some (F64.ltb (F64.of_Z (sub32 (snd m) (fst m))) thr).
Proof.
  intros Hls Ht Hv.
  destruct (runSession_run N lineSize thr s Hls Ht Hv)
    as (ms & s' & Hn & _ & E & T & _ & _ & D & G & _).
  eexists ms, _, s'. split; [exact E|]. split; [exact Hn|].
  split; [rewrite D, length_map; exact Hn|]. split; [exact T|].
  split; [exact G|].
  intros i m Hm. rewrite D. apply (lookup_map (verdict thr)). exact Hm.
Qed.

Lemma session_detects_by_index_witness :
  exists ms rep s',
    runSession scenario 16 32 (F64.of_Z 105) scenario_state = Some (rep, s') /\
    length ms = length (victimPattern scenario_state) /\
    length (detected s') = length (victimPattern scenario_state) /\
    trace s' = trace scenario_state
               ++ session_events 32 0 (victimPattern scenario_state) ms /\
    genuine (hw scenario_state)
      (session_events 32 0 (victimPattern scenario_state) ms) /\
    forall i m, ms !! i = Some m ->
      detected s' !! i
      = Some (F64.ltb (F64.of_Z (sub32 (snd m) (fst m))) (F64.of_Z 105)).
Proof.
  apply (session_detects_by_index scenario scenario_state 16 32 (F64.of_Z 105));
    [lia|reflexivity|reflexivity].
Defined.

(** *** The session writes to [detected] only *)

Create HintDb frame.

Section Frame.
Context {P : Platform}.

Lemma preserves_ret {A} (a : A) : preserves (@ret P A a).
Proof. intros s x s' [= _ <-]. auto. Qed.

Lemma preserves_bind {A B} (m : M P A) (k : A -> M P B) :
  preserves m -> (forall a, preserves (k a)) -> preserves (bind m k).
Proof.
  intros Hm Hk s b s' E. unfold bind in E.
  destruct (m s) as [[a s1]|] eqn:E1; [|discriminate].
  destruct (Hm _ _ _ E1) as [T1 V1]. destruct (Hk a _ _ _ E) as [T2 V2].
  rewrite T2, V2. auto.
Qed.

Lemma preserves_call o : preserves (call P o).
Proof.
  intros s v s' E. unfold call in E.
  destruct (exec P o (hw s)) as [raw h']. injection E as _ <-. auto.
Qed.

Lemma preserves_addr_target i : preserves (addr_target P i).
Proof.
  intros s v s' E. unfold addr_target in E.
  destruct (_ && _); [|discriminate]. injection E as _ <-. auto.
Qed.

Lemma preserves_read_pattern i : preserves (read_pattern P i).
Proof.
  intros s v s' E. unfold read_pattern in E.
  destruct (0 <=? i); [|discriminate].
  destruct (victimPattern s !! Z.to_nat i); [|discriminate].
  injection E as _ <-. auto.
Qed.

Lemma preserves_read_detected i : preserves (read_detected P i).
Proof.
  intros s v s' E. unfold read_detected in E.
  destruct (0 <=? i); [|discriminate].
  destruct (detected s !! Z.to_nat i); [|discriminate].
  injection E as _ <-. auto.
Qed.

Lemma preserves_write_detected i b : preserves (write_detected P i b).
Proof.
  intros s v s' E. unfold write_detected in E.
  destruct (_ && _); [|discriminate]. injection E as _ <-. auto.
Qed.

Lemma preserves_accessByte ptr : preserves (accessByte P ptr).
Proof.
  apply preserves_bind; [apply preserves_call|]. intros _ s v s' E.
  destruct (target s !! Z.to_nat ptr); [|discriminate].
  injection E as _ <-. auto.
Qed.

Lemma preserves_for_loop {A} (body : Z -> A -> M P A) n :
  (forall i a, preserves (body i a)) ->
  forall i a, preserves (for_loop n i body a).
Proof.
  intros Hb. induction n as [|n IH]; intros i a; cbn [for_loop].
  - apply preserves_ret.
  - apply preserves_bind; [apply Hb|]. intros a'. apply IH.
Qed.

#[local] Hint Resolve preserves_ret preserves_call preserves_addr_target
  preserves_read_pattern preserves_read_detected preserves_write_detected
  preserves_accessByte : frame.

Ltac frame :=
  repeat first
    [ solve [auto with frame]
    | apply preserves_bind; [|intros ?]
    | apply preserves_for_loop; intros ? ? ].

Lemma preserves_simulateVictimAccess ptr b : preserves (simulateVictimAccess P ptr b).
Proof. unfold simulateVictimAccess. destruct b; frame. Qed.

Lemma preserves_probe_line lineSize thr line u :
  preserves (probe_line P lineSize thr line u).
Proof.
  unfold probe_line, FlushDataCache, dsb, readPMUCycleCounter.
  pose proof preserves_simulateVictimAccess. frame.
Qed.

Lemma preserves_score N : preserves (score P N).
Proof. unfold score, score_line. frame. Qed.

(** Whatever the lengths of the buffer and of the pattern: a session that
    returns has left both untouched. *)
Lemma preserves_runSession N lineSize thr : preserves (runSession P N lineSize thr).
Proof.
  unfold runSession, probe_lines.
  apply preserves_bind.
  { intros s v s'. unfold make_detected.
    destruct (N <? 0); [discriminate|]. intros [= _ <-]. auto. }
  intros _.
  apply preserves_bind; [|intros _; apply preserves_score].
  apply preserves_for_loop. intros i u. apply preserves_probe_line.
Qed.
End Frame.

(** C9. The session reads its inputs only: for every pattern and buffer,
    when the session has run to completion the pattern and the buffer are
    what they were at the start, element by element.  (That the session
    does complete on a buffer of [N] lines and a pattern of [N] booleans is
    part of [session_detects_by_index].) *)
Theorem session_preserves_inputs (P : Platform) (s : state P)
    (N lineSize : Z) (thr : F64.t) (rep : AccuracyReport) (s' : state P) :
  runSession P N lineSize thr s = Some (rep, s') ->
  target s' = target s /\
  victimPattern s' = victimPattern s /\
  (forall i : nat, target s' !! i = target s !! i) /\
  (forall i : nat, victimPattern s' !! i = victimPattern s !! i).
Proof.
  intros E. destruct (preserves_runSession N lineSize thr s rep s' E) as [B V].
  rewrite B, V. auto.
Qed.

Lemma session_preserves_inputs_witness :
  exists rep s',
    runSession scenario 16 32 (F64.of_Z 105) scenario_state = Some (rep, s') /\
    target s' = target scenario_state /\
    victimPattern s' = victimPattern scenario_state /\
    (forall i : nat, target s' !! i = target scenario_state !! i) /\
    (forall i : nat, victimPattern s' !! i = victimPattern scenario_state !! i).
Proof.
  eexists _, _. split; [vm_compute; reflexivity|].
  eapply (session_preserves_inputs scenario scenario_state 16 32 (F64.of_Z 105)).
  vm_compute. reflexivity.
Defined.

(** ** The accuracy report *)

Lemma agree_at_middle (dl pl d p : list bool) x y :
  length dl = length pl ->
  agree_at (dl ++ x :: d) (pl ++ y :: p) (length dl) = Bool.eqb x y.
Proof.
  intros H. unfold agree_at.
  rewrite list_lookup_middle by reflexivity.
  rewrite list_lookup_middle by exact H. reflexivity.
Qed.

Lemma agreements_from (dl pl d p : list bool) :
  length dl = length pl -> length d = length p ->
  agreements d p
  = Z.of_nat (length (filter (fun i => agree_at (dl ++ d) (pl ++ p) i = true)
                        (seq (length dl) (length d)))).
Proof.
  revert dl pl p. induction d as [|x d IH]; intros dl pl [|y p] Hl Hd;
    try discriminate Hd; [reflexivity|].
  cbn [agreements length seq].
  rewrite (IH (dl ++ [x]) (pl ++ [y]) p);
    [|rewrite !length_app; cbn; lia|cbn in Hd; lia].
  rewrite <- !app_assoc. cbn [app].
  replace (length (dl ++ [x])) with (S (length dl)) by (rewrite length_app; cbn; lia).
  rewrite filter_cons, (agree_at_middle dl pl d p x y Hl).
  destruct (Bool.eqb x y); cbn.
  - destruct (decide (true = true)); [cbn; lia|congruence].
  - destruct (decide (false = true)); [congruence|cbn; lia].
Qed.

Lemma agreements_count (d p : list bool) :
  length d = length p ->
  agreements d p = count_agreeing d p (length d).
Proof.
  intros H. unfold count_agreeing.
  exact (agreements_from [] [] d p eq_refl H).
Qed.

(** With sixteen lines the percentage is the exact rational
    [correct / 16 * 100]: no rounding takes place. *)
Lemma percentage_exact_16 c :
  0 <= c <= 16 ->
  F64.exactly (F64.mul (F64.div (F64.of_Z c) (F64.of_Z 16)) (F64.of_Z 100))
    (c * 100) 16.
Proof.
  intros H.
  assert (Hc : c = 0 \/ c = 1 \/ c = 2 \/ c = 3 \/ c = 4 \/ c = 5 \/ c = 6 \/
               c = 7 \/ c = 8 \/ c = 9 \/ c = 10 \/ c = 11 \/ c = 12 \/
               c = 13 \/ c = 14 \/ c = 15 \/ c = 16) by lia.
  repeat (destruct Hc as [->|Hc]); try subst c; vm_compute; split; reflexivity.
Qed.

(** C3. For a detection result and a pattern of the same length [N], the
    report's [correct] is the number of indices below [N] at which the two
    agree, its [total] is [N], and its percentage is
    [float64(correct) / float64(total) * 100.0] in binary64 arithmetic; for
    the sixteen lines of the demo that value is the exact rational
    [correct / total * 100].  Scoring changes nothing in the state. *)
Theorem report_counts_agreements (P : Platform) (s : state P) (N : Z) :
  Z.of_nat (length (detected s)) = N ->
  Z.of_nat (length (victimPattern s)) = N ->
  exists rep,
    score P N s = Some (rep, s) /\
    correct rep = count_agreeing (detected s) (victimPattern s) (Z.to_nat N) /\
    total rep = N /\
    accuracy rep
    = F64.mul (F64.div (F64.of_Z (correct rep)) (F64.of_Z (total rep))) (F64.of_Z 100) /\
    (N = 16 -> F64.exactly (accuracy rep) (correct rep * 100) (total rep)).
Proof.
  intros Hd Hv. eexists. split; [apply (score_run N s Hd Hv)|].
  cbn [correct total accuracy]. split.
  { rewrite agreements_count by lia. f_equal. lia. }
  split; [reflexivity|]. split; [reflexivity|].
  intros ->. apply percentage_exact_16.
  pose proof (agreements_bound (detected s) (victimPattern s)). lia.
Qed.

Lemma report_counts_agreements_witness :
  exists rep,
    score scenario 16 scored_state = Some (rep, scored_state) /\
    correct rep
    = count_agreeing (detected scored_state) (victimPattern scored_state)
        (Z.to_nat 16) /\
    total rep = 16 /\
    accuracy rep
    = F64.mul (F64.div (F64.of_Z (correct rep)) (F64.of_Z (total rep))) (F64.of_Z 100) /\
    (16 = 16 -> F64.exactly (accuracy rep) (correct rep * 100) (total rep)).
Proof.
  apply (report_counts_agreements scenario scored_state 16); reflexivity.
Defined.

(** ** The session on the deterministic cache stub *)

Section OnStub.
Context (hwLine hit miss : Z).

Lemma is_cached_flushed addr : Stub.is_cached hwLine addr [] = false.
Proof. reflexivity. Qed.

Lemma is_cached_loaded addr l :
  Stub.is_cached hwLine addr (Stub.line_of hwLine addr :: l) = true.
Proof.
  unfold Stub.is_cached. apply bool_decide_eq_true. apply list_elem_of_here.
Qed.

(** After a flush, the reload of a line costs a hit when the victim
    loaded it and a miss when the victim stayed away. *)
Lemma stub_probe_duration (h : machine (Stub.platform hwLine hit miss)) lineSize line b m :
  genuine h (probe_events lineSize line b m) ->
  duration m = wrap32 (if b then hit else miss).
Proof.
  destruct m as [st en], h as [c l].
  unfold probe_events, victim_events, timed_events, duration.
  destruct b; cbn [app genuine exec Stub.platform Stub.step fst snd visible Stub.cycles
                     Stub.cached].
  - rewrite is_cached_flushed. cbn [fst snd Stub.cycles Stub.cached].
    rewrite is_cached_loaded. cbn [fst snd Stub.cycles Stub.cached].
    intros (_ & _ & _ & -> & _ & -> & _). apply sub32_advance.
  - rewrite is_cached_flushed. cbn [fst snd Stub.cycles Stub.cached].
    intros (_ & _ & -> & _ & -> & _). apply sub32_advance.
Qed.

Lemma stub_session_durations lineSize (pattern : list bool) :
  forall (ms : list sample) (h : machine (Stub.platform hwLine hit miss)) line,
    length ms = length pattern ->
    genuine h (session_events lineSize line pattern ms) ->
    Forall2 (fun (b : bool) m => duration m = wrap32 (if b then hit else miss))
      pattern ms.
Proof.
  induction pattern as [|b pattern IH]; intros [|m ms] h line Hlen G;
    try discriminate Hlen; [constructor|].
  cbn [session_events] in G. apply genuine_app in G as [G1 G2].
  constructor.
  - exact (stub_probe_duration h lineSize line b m G1).
  - eapply (IH ms _ (line + 1)); [cbn in Hlen; lia|exact G2].
Qed.

(** The prime load of a calibration round leaves line 0 cached, so the
    timed load is a hit; after the flush the timed load is a miss. *)
Lemma stub_round_durations (h : machine (Stub.platform hwLine hit miss)) r :
  genuine h (hit_events (fst r) ++ miss_events (snd r)) ->
  duration (fst r) = wrap32 hit /\ duration (snd r) = wrap32 miss.
Proof.
  destruct r as [[hs he] [ms me]], h as [c l].
  unfold hit_events, miss_events, timed_events, duration.
  cbn [app genuine exec Stub.platform Stub.step fst snd visible Stub.cycles Stub.cached].
  destruct (Stub.is_cached hwLine 0 l) eqn:E;
    cbn [fst snd Stub.cycles Stub.cached].
  - rewrite E. cbn [fst snd Stub.cycles Stub.cached].
    rewrite is_cached_flushed. cbn [fst snd Stub.cycles Stub.cached].
    intros (_ & _ & -> & _ & -> & _ & _ & -> & _ & -> & _).
    split; apply sub32_advance.
  - rewrite is_cached_loaded. cbn [fst snd Stub.cycles Stub.cached].
    rewrite is_cached_flushed. cbn [fst snd Stub.cycles Stub.cached].
    intros (_ & _ & -> & _ & -> & _ & _ & -> & _ & -> & _).
    split; apply sub32_advance.
Qed.

Lemma stub_calibration_durations rounds :
  forall h : machine (Stub.platform hwLine hit miss),
    genuine h (calibration_events rounds) ->
    hit_durations rounds = replicate (length rounds) (wrap32 hit) /\
    miss_durations rounds = replicate (length rounds) (wrap32 miss).
Proof.
  induction rounds as [|r rounds IH]; intros h G; [split; reflexivity|].
  unfold calibration_events in G. cbn [map concat] in G.
  apply genuine_app in G as [G1 G2].
  destruct (stub_round_durations h r G1) as [Eh Em].
  destruct (IH _ G2) as [IHh IHm].
  unfold hit_durations, miss_durations in *. cbn [map length replicate].
  rewrite Eh, Em, IHh, IHm. split; reflexivity.
Qed.

(** The verdict at an index depends on the pattern at that index only. *)
Lemma stub_session_verdict (s : state (Stub.platform hwLine hit miss)) N lineSize thr :
  0 < lineSize ->
  Z.of_nat (length (target s)) = N * lineSize ->
  Z.of_nat (length (victimPattern s)) = N ->
  exists rep s',
    runSession (Stub.platform hwLine hit miss) N lineSize thr s = Some (rep, s') /\
    victimPattern s' = victimPattern s /\
    forall (i : nat) (b : bool), victimPattern s !! i = Some b ->
      detected s' !! i
      = Some (classify (F64.of_Z (wrap32 (if b then hit else miss))) thr).
Proof.
  intros Hls Ht Hv.
  destruct (runSession_run N lineSize thr s Hls Ht Hv)
    as (ms & s' & Hn & _ & E & _ & _ & V & D & G & _).
  pose proof (stub_session_durations lineSize _ ms (hw s) 0 Hn G) as F.
  eexists _, s'. split; [exact E|]. split; [exact V|].
  intros i b Hb.
  destruct (Forall2_lookup_l _ _ _ _ _ F Hb) as (m & Hm & Hd).
  rewrite D, (lookup_map (verdict thr) ms i m Hm).
  unfold verdict. rewrite Hd. reflexivity.
Qed.
End OnStub.

(** C8. On the deterministic stub the verdict at index [i] is a function of
    [pattern[i]] and the threshold alone: two sessions that start from any
    two hardware states (any counter value, any cache content left by
    earlier probes), with any two patterns that agree at [i], both run to
    completion and store the same verdict at [i], namely the comparison of
    the hit latency (when [pattern[i]] holds) or the miss latency (when it
    does not) with the threshold. *)
Theorem lines_are_independent (hwLine hit miss : Z)
    (s1 s2 : state (Stub.platform hwLine hit miss))
    (N lineSize : Z) (thr : F64.t) (i : nat) (b : bool) :
  0 < lineSize ->
  Z.of_nat (length (target s1)) = N * lineSize ->
  Z.of_nat (length (victimPattern s1)) = N ->
  Z.of_nat (length (target s2)) = N * lineSize ->
  Z.of_nat (length (victimPattern s2)) = N ->
  victimPattern s1 !! i = Some b ->
  victimPattern s2 !! i = Some b ->
  exists rep1 s1' rep2 s2',
    runSession (Stub.platform hwLine hit miss) N lineSize thr s1 = Some (rep1, s1') /\
    runSession (Stub.platform hwLine hit miss) N lineSize thr s2 = Some (rep2, s2') /\
    detected s1' !! i
    = Some (classify (F64.of_Z (wrap32 (if b then hit else miss))) thr) /\
    detected s2' !! i = detected s1' !! i.
Proof.
  intros Hls Ht1 Hv1 Ht2 Hv2 Hb1 Hb2.
  destruct (stub_session_verdict hwLine hit miss s1 N lineSize thr Hls Ht1 Hv1)
    as (rep1 & s1' & E1 & _ & D1).
  destruct (stub_session_verdict hwLine hit miss s2 N lineSize thr Hls Ht2 Hv2)
    as (rep2 & s2' & E2 & _ & D2).
  exists rep1, s1', rep2, s2'. split; [exact E1|]. split; [exact E2|].
  rewrite (D1 i b Hb1), (D2 i b Hb2). split; reflexivity.
Qed.

Lemma lines_are_independent_witness :
  exists rep1 s1' rep2 s2',
    runSession scenario 16 32 (F64.of_Z 105) scenario_state = Some (rep1, s1') /\
    runSession scenario 16 32 (F64.of_Z 105) scenario_state_alt = Some (rep2, s2') /\
    detected s1' !! 2%nat
    = Some (classify (F64.of_Z (wrap32 (if true then 10 else 200))) (F64.of_Z 105)) /\
    detected s2' !! 2%nat = detected s1' !! 2%nat.
Proof.
  apply (lines_are_independent 32 10 200 scenario_state scenario_state_alt
           16 32 (F64.of_Z 105) 2 true); try reflexivity; lia.
Defined.

(** ** The whole demo *)

Lemma demoTarget_length : length demoTarget = 512%nat.
Proof. vm_compute. reflexivity. Qed.

Lemma distribution_loop_run {P : Platform} off b n :
  forall i (s : state P),
    0 <= off < Z.of_nat (length (target s)) ->
    exists evs s',
      for_loop n i (distribution_sample P off b) tt s = Some (tt, s') /\
      after s evs s'.
Proof.
  induction n as [|n IH]; intros i s Hoff.
  - exists [], s. split; [reflexivity|apply after_refl].
  - destruct (FlushDataCache_after s) as (s1 & E1 & A1 & _).
    destruct (dsb_after s1) as (s2 & E2 & A2 & _).
    pose proof (after_trans _ _ _ _ _ A1 A2) as A12.
    assert (H2 : 0 <= off < Z.of_nat (length (target s2))).
    { rewrite (after_target_length _ _ _ A12). exact Hoff. }
    destruct (simulateVictimAccess_after off b s2 H2) as (s3 & E3 & A3).
    pose proof (after_trans _ _ _ _ _ A12 A3) as A13.
    destruct (timed_after off s3) as (m & s4 & _ & A4 & E4).
    { rewrite (after_target_length _ _ _ A13). exact Hoff. }
    pose proof (after_trans _ _ _ _ _ A13 A4) as A14.
    destruct (IH (i + 1) s4) as (evs & s' & E5 & A5).
    { rewrite (after_target_length _ _ _ A14). exact Hoff. }
    eexists _, s'. split; [|exact (after_trans _ _ _ _ _ A14 A5)].
    cbn [for_loop]. unfold distribution_sample at 1.
    erewrite (bind_some (bind _ _)).
    2:{ rewrite (bind_some _ _ _ _ _ E1), (bind_some _ _ _ _ _ E2).
        rewrite (bind_some _ _ _ _ _ (addr_target_ok off s2 H2)).
        rewrite (bind_some _ _ _ _ _ E3), E4. reflexivity. }
    exact E5.
Qed.

(** On every platform the demo runs to completion: it calibrates on the
    demo buffer with 100 rounds, probes the 16 lines against the demo
    pattern with the threshold of the calibration, and reports. *)
Lemma CacheTimerDemo_run (P : Platform) (h : machine P) :
  exists (h1 h2 : machine P) rounds ms s',
    length rounds = 100%nat /\
    length ms = 16%nat /\
    genuine h1 (calibration_events rounds) /\
    genuine h2 (session_events cacheLineSize 0 demoPattern ms) /\
    let cal := calibration_result calibSamples
                 (accumulate (hit_durations rounds) 0,
                  accumulate (miss_durations rounds) 0) in
    let verdicts := map (verdict (threshold cal)) ms in
    CacheTimerDemo P (boot P h)
    = Some ((cal,
             mkReport (agreements verdicts demoPattern) numLines
               (F64.mul (F64.div (F64.of_Z (agreements verdicts demoPattern))
                                 (F64.of_Z numLines))
                        (F64.of_Z 100))), s') /\
    target s' = demoTarget /\
    victimPattern s' = demoPattern /\
    detected s' = verdicts.
Proof.
  set (s0 := boot P h).
  destruct (unit_call_after OpEnableSMP s0 eq_refl) as (s1 & E1 & A1 & _).
  destruct (unit_call_after OpEnableCache s1 eq_refl) as (s2 & E2 & A2 & _).
  destruct (unit_call_after OpInitGenericTimers s2 eq_refl) as (s3 & E3 & A3 & _).
  destruct (unit_call_after OpEnablePMU s3 eq_refl) as (s4 & E4 & A4 & _).
  destruct (unit_call_after OpResetPMU s4 eq_refl) as (s5 & E5 & A5 & _).
  destruct (readPMUCycleCounter_after s5) as (p1 & s6 & E6 & A6 & _).
  destruct (dsb_after s6) as (s7 & E7 & A7 & _).
  destruct (readPMUCycleCounter_after s7) as (p2 & s8 & E8 & A8 & _).
  destruct (call_after OpCounter s8) as (t1 & s9 & E9 & A9 & _).
  destruct (dsb_after s9) as (s10 & E10 & A10 & _).
  destruct (call_after OpCounter s10) as (t2 & s11 & E11 & A11 & _).
  set (sa := mkState (hw s11) (trace s11) demoTarget (victimPattern s11)
               (detected s11)).
  destruct (calibration_sums_run sa calibSamples) as (rounds & sb & Hr & _ & Ab & Eb).
  { cbn [sa target]. rewrite demoTarget_length. lia. }
  set (cal := calibration_result calibSamples
                (accumulate (hit_durations rounds) 0,
                 accumulate (miss_durations rounds) 0)).
  set (sc := mkState (hw sb) (trace sb) (target sb) demoPattern (detected sb)).
  assert (Hbt : target sb = demoTarget) by (destruct Ab as (_ & -> & _); reflexivity).
  destruct (runSession_run numLines cacheLineSize (threshold cal) sc)
    as (ms & sd & Hn & _ & Ed & _ & Bd & Vd & Dd & Gd & _).
  { reflexivity. }
  { cbn [sc target]. rewrite Hbt, demoTarget_length. reflexivity. }
  { reflexivity. }
  cbn [sc target victimPattern hw] in Bd, Vd, Gd, Hn.
  destruct (distribution_loop_run 0 true 10 0 sd) as (ev1 & se & Ee & Ae).
  { rewrite Bd, Hbt, demoTarget_length. lia. }
  destruct (distribution_loop_run cacheLineSize false 10 0 se) as (ev2 & sf & Ef & Af).
  { rewrite (after_target_length _ _ _ Ae), Bd, Hbt, demoTarget_length.
    unfold cacheLineSize. lia. }
  pose proof (after_trans _ _ _ _ _ Ae Af) as (_ & Bf & Vf & Df & _).
  exists (hw sa), (hw sb), rounds, ms, sf.
  split; [exact Hr|]. split; [exact Hn|].
  split; [destruct Ab as (_ & _ & _ & _ & G & _); exact G|]. split; [exact Gd|].
  cbn zeta. fold cal. split; [|rewrite Bf, Vf, Df, Bd, Vd, Dd, Hbt; auto].
  unfold CacheTimerDemo. fold s0.
  unfold EnableSMP, EnableCache, InitGenericTimers, enablePMU,
    resetPMUCycleCounter, Counter.
  rewrite (bind_some _ _ _ _ _ E1), (bind_some _ _ _ _ _ E2),
    (bind_some _ _ _ _ _ E3), (bind_some _ _ _ _ _ E4), (bind_some _ _ _ _ _ E5),
    (bind_some _ _ _ _ _ E6), (bind_some _ _ _ _ _ E7), (bind_some _ _ _ _ _ E8),
    (bind_some _ _ _ _ _ E9), (bind_some _ _ _ _ _ E10), (bind_some _ _ _ _ _ E11).
  erewrite bind_some by reflexivity. fold sa.
  erewrite (bind_some (calibrate P calibSamples)).
  2:{ unfold calibrate. rewrite (bind_some _ _ _ _ _ Eb). reflexivity. }
  fold cal. erewrite bind_some by reflexivity. fold sc.
  rewrite (bind_some _ _ _ _ _ Ed), (bind_some _ _ _ _ _ Ee),
    (bind_some _ _ _ _ _ Ef).
  reflexivity.
Qed.

Lemma map_of_Forall2 {A B C} (R : A -> B -> Prop) (f : B -> C) (g : A -> C) l k :
  (forall a b, R a b -> f b = g a) -> Forall2 R l k -> map f k = map g l.
Proof.
  intros H. induction 1 as [|a b l k Hab _ IH]; cbn; [reflexivity|].
  rewrite (H a b Hab), IH. reflexivity.
Qed.

Lemma accumulate_replicate_100 d :
  0 <= d < 2 ^ 32 -> accumulate (replicate 100 d) 0 = 100 * d.
Proof.
  intros H. rewrite accumulate_exact.
  - cbn. lia.
  - lia.
  - repeat constructor; lia.
  - cbn. lia.
Qed.

(** C4. On the stub with a 10-cycle hit and a 200-cycle miss, whatever the
    counter value and the cache content at the start, the demo, with its
    sixteen lines and its pattern, computes the averages 10 and 200 and the
    threshold 105, detects exactly the pattern, and reports 16 correct out
    of 16, 100 percent. *)
Theorem scenario_outcome (h : Stub.cache_state) :
  exists s',
    CacheTimerDemo scenario (boot scenario h)
    = Some ((mkCalibration (F64.of_Z 10) (F64.of_Z 200) (F64.of_Z 105),
             mkReport 16 16 (F64.of_Z 100)), s') /\
    victimPattern s'
    = [true; false; true; true; false; false; true; false;
       true; false; false; true; true; false; true; false] /\
    detected s' = victimPattern s' /\
    Z.of_nat (length (target s')) = 16 * 32 /\
    F64.exactly (F64.of_Z 105) 105 1 /\
    F64.exactly (F64.of_Z 100) 100 1.
Proof.
  destruct (CacheTimerDemo_run scenario h)
    as (h1 & h2 & rounds & ms & s' & Hr & Hn & G1 & G2 & E & B & V & D).
  cbn zeta in E, D.
  destruct (stub_calibration_durations 32 10 200 rounds h1 G1) as [Dh Dm].
  rewrite Hr in Dh, Dm.
  rewrite Dh, Dm in E, D.
  rewrite !accumulate_replicate_100 in E, D by (vm_compute; split; [discriminate|reflexivity]).
  change (calibration_result calibSamples (100 * wrap32 10, 100 * wrap32 200))
    with (mkCalibration (F64.div (F64.of_Z 1000) (F64.of_Z 100))
            (F64.div (F64.of_Z 20000) (F64.of_Z 100))
            (F64.div (F64.add (F64.div (F64.of_Z 1000) (F64.of_Z 100))
                              (F64.div (F64.of_Z 20000) (F64.of_Z 100)))
                     (F64.of_Z 2))) in E, D.
  cbn [threshold] in E, D.
  set (thr := F64.div (F64.add (F64.div (F64.of_Z 1000) (F64.of_Z 100))
                               (F64.div (F64.of_Z 20000) (F64.of_Z 100)))
                      (F64.of_Z 2)) in E, D.
  assert (Hv : map (verdict thr) ms = demoPattern).
  { pose proof (stub_session_durations 32 10 200 cacheLineSize demoPattern ms h2 0
                  Hn G2) as F.
    assert (H : forall (b : bool) (m : sample),
               duration m = wrap32 (if b then 10 else 200) ->
               verdict thr m = stub_verdict 10 200 thr b).
    { intros b m Hbm. unfold verdict, stub_verdict. rewrite Hbm. reflexivity. }
    rewrite (map_of_Forall2 _ _ _ _ _ H F). vm_compute. reflexivity. }
  rewrite Hv in E, D.
  exists s'. split.
  { rewrite E. vm_compute. reflexivity. }
  rewrite V, D, B. vm_compute. repeat split; reflexivity.
Qed.

(** ** What happens between the two counter reads *)

Lemma between_reads_calibration rounds :
  between_reads None (calibration_events rounds)
  = replicate (2 * length rounds) [OpLoad 0].
Proof.
  induction rounds as [|r rounds IH]; [reflexivity|].
  change (calibration_events (r :: rounds))
    with ((hit_events (fst r) ++ miss_events (snd r)) ++ calibration_events rounds).
  cbn [length].
  replace (2 * S (length rounds))%nat with (S (S (2 * length rounds))) by lia.
  unfold hit_events, miss_events, timed_events.
  cbn [app between_reads is_counter_read replicate]. rewrite IH. reflexivity.
Qed.

Lemma between_reads_session lineSize pattern :
  forall ms line,
    length ms = length pattern ->
    between_reads None (session_events lineSize line pattern ms)
    = map (fun a => [OpLoad a]) (line_offsets lineSize line (length ms)).
Proof.
  induction pattern as [|b pattern IH]; intros [|m ms] line Hlen;
    try discriminate Hlen; [reflexivity|].
  cbn [session_events length line_offsets map].
  rewrite <- (IH ms (line + 1)) by (cbn in Hlen; lia).
  destruct b; reflexivity.
Qed.

(** [flushReload] does issue the barrier between its load and its second
    counter read. *)
Lemma flushReload_run {P : Platform} (s : state P) ptr :
  0 <= ptr < Z.of_nat (length (target s)) ->
  exists st en s',
    flushReload P ptr s = Some (sub64 en st, s') /\
    after s [Ev OpFlushDataCache 0; Ev OpDsb 0; Ev OpCounter st;
             Ev (OpLoad ptr) 0; Ev OpDsb 0; Ev OpCounter en] s'.
Proof.
  intros Hp.
  destruct (FlushDataCache_after s) as (s1 & E1 & A1 & _).
  destruct (dsb_after s1) as (s2 & E2 & A2 & _).
  pose proof (after_trans _ _ _ _ _ A1 A2) as A12.
  destruct (call_after OpCounter s2) as (st & s3 & E3 & A3 & _).
  pose proof (after_trans _ _ _ _ _ A12 A3) as A13.
  destruct (accessByte_after ptr s3) as (x & s4 & E4 & A4 & _).
  { rewrite (after_target_length _ _ _ A13). exact Hp. }
  destruct (dsb_after s4) as (s5 & E5 & A5 & _).
  destruct (call_after OpCounter s5) as (en & s6 & E6 & A6 & _).
  pose proof (after_trans _ _ _ _ _ A13
                (after_trans _ _ _ _ _ A4 (after_trans _ _ _ _ _ A5 A6))) as A16.
  exists st, en, s6. split; [|exact A16].
  unfold flushReload.
  rewrite (bind_some _ _ _ _ _ E1), (bind_some _ _ _ _ _ E2).
  erewrite (bind_some (for_loop _ _ _ _)) by reflexivity.
  unfold Counter.
  rewrite (bind_some _ _ _ _ _ E3), (bind_some _ _ _ _ _ E4),
    (bind_some _ _ _ _ _ E5), (bind_some _ _ _ _ _ E6).
  reflexivity.
Qed.

(** On every platform, each timed load of the calibration and of the
    session has the load, and nothing else, between its two counter reads. *)
Lemma timed_loads_have_no_barrier {P : Platform} (s : state P)
    (samples N lineSize : Z) (thr : F64.t) :
  trace s = [] ->
  0 < lineSize ->
  Z.of_nat (length (target s)) = N * lineSize ->
  Z.of_nat (length (victimPattern s)) = N ->
  0 < N ->
  exists cal s1 rep s2,
    calibrate P samples s = Some (cal, s1) /\
    between_reads None (trace s1) = replicate (2 * Z.to_nat samples) [OpLoad 0] /\
    runSession P N lineSize thr s = Some (rep, s2) /\
    between_reads None (trace s2)
    = map (fun a => [OpLoad a]) (line_offsets lineSize 0 (Z.to_nat N)).
Proof.
  intros Ht Hls Hb Hv HN.
  destruct (calibration_sums_run s samples) as (rounds & s1 & Hr & _ & A & E); [nia|].
  destruct (runSession_run N lineSize thr s Hls Hb Hv)
    as (ms & s2 & Hn & _ & E2 & T2 & _).
  eexists _, s1, _, s2. split.
  { unfold calibrate. rewrite (bind_some _ _ _ _ _ E). reflexivity. }
  destruct A as (T1 & _). rewrite T1, T2, Ht. cbn [app].
  rewrite between_reads_calibration, Hr.
  rewrite (between_reads_session lineSize _ ms 0 Hn).
  split; [reflexivity|]. split; [exact E2|].
  do 2 f_equal. lia.
Qed.

(** C6 (the code departs from the claim).  On the stub of the scenario,
    with the demo's buffer and pattern: between the two counter reads of
    each of the 200 timed loads of the calibration and of each of the 16
    timed reloads of the session there is the load and no barrier, whereas
    [flushReload] has the load followed by the barrier. *)
Theorem demo_timed_loads_skip_the_barrier :
  exists cal s1 rep s2 d s3,
    calibrate scenario calibSamples scenario_state = Some (cal, s1) /\
    between_reads None (trace s1) = replicate 200 [OpLoad 0] /\
    runSession scenario numLines cacheLineSize (threshold cal) scenario_state
    = Some (rep, s2) /\
    between_reads None (trace s2)
    = map (fun a => [OpLoad a]) (line_offsets 32 0 16) /\
    flushReload scenario 0 scenario_state = Some (d, s3) /\
    between_reads None (trace s3) = [[OpLoad 0; OpDsb]].
Proof.
  destruct (timed_loads_have_no_barrier scenario_state calibSamples numLines
              cacheLineSize
              (F64.of_Z 105))
    as (cal & s1 & rep & s2 & E1 & B1 & E2 & B2);
    [reflexivity|reflexivity|reflexivity|reflexivity|reflexivity|].
  assert (Hc : threshold cal = F64.of_Z 105).
  { vm_compute in E1. injection E1 as <- _. reflexivity. }
  destruct (flushReload_run scenario_state 0) as (st & en & s3 & E3 & T3 & _).
  { vm_compute. split; [discriminate|reflexivity]. }
  exists cal, s1, rep, s2, (sub64 en st), s3.
  rewrite Hc. split; [exact E1|]. split; [exact B1|]. split; [exact E2|].
  split; [exact B2|]. split; [exact E3|].
  rewrite T3. reflexivity.
Qed.

(** ** Implausible samples *)

(** The claim C7 as stated fails: with a counter whose second reading of
    the first hit sample is below the first, that sample has a duration of
    [2 ^ 32 - 50] cycles, far above every other duration of the run, and the
    hit sum the code returns contains it; the sum of the plausible samples
    is 990. *)
Lemma outlier_is_averaged_in :
  exists sums s',
    calibration_sums Script.platform calibSamples glitch_state = Some (sums, s') /\
    trace s' = calibration_events glitch_rounds /\
    hit_durations glitch_rounds = 4294967246 :: replicate 99 10 /\
    miss_durations glitch_rounds = replicate 100 200 /\
    fst sums = 4294968236 /\
    plausible_sum 1000000 (hit_durations glitch_rounds) = 990 /\
    ~ outliers_excluded 1000000 (hit_durations glitch_rounds) (fst sums).
Proof.
  eexists _, _. split; [vm_compute; reflexivity|].
  cbn [fst trace]. unfold outliers_excluded.
  split; [vm_compute; reflexivity|]. split; [vm_compute; reflexivity|].
  split; [vm_compute; reflexivity|]. split; [reflexivity|].
  split; [vm_compute; reflexivity|]. vm_compute. discriminate.
Qed.

(** C7, amended.  The calibration adds the duration of every sample to its
    sum, whatever its size: for any sample count from 1 to [2 ^ 32] the
    averages it returns are those of the plain sums of all hit durations and
    of all miss durations that the trace shows; no sample is left out. *)
Theorem every_sample_is_averaged_in (P : Platform) (s : state P) (samples : Z) :
  1 <= samples <= 2 ^ 32 ->
  0 < Z.of_nat (length (target s)) ->
  exists rounds cal s',
    calibrate P samples s = Some (cal, s') /\
    Z.of_nat (length rounds) = samples /\
    after s (calibration_events rounds) s' /\
    hitAvg cal = F64.div (F64.of_Z (total_of (hit_durations rounds)))
                         (F64.of_Z samples) /\
    missAvg cal = F64.div (F64.of_Z (total_of (miss_durations rounds)))
                          (F64.of_Z samples).
Proof.
  intros Hn Hlen.
  destruct (calibration_sums_run s samples Hlen) as (rounds & s' & Hr & V & A & E).
  destruct (durations_range rounds V) as [Rh Rm].
  pose proof (total_of_bound _ _ Rh) as Bh.
  pose proof (total_of_bound _ _ Rm) as Bm.
  unfold hit_durations, miss_durations in Bh, Bm. rewrite length_map in Bh, Bm.
  fold (hit_durations rounds) in Bh. fold (miss_durations rounds) in Bm.
  assert (Hlt : Z.of_nat (length rounds) * (2 ^ 32 - 1) < 2 ^ 64).
  { rewrite Hr, Z2Nat.id by lia. change (2 ^ 64) with (2 ^ 32 * 2 ^ 32). nia. }
  eexists rounds, _, s'. split.
  { unfold calibrate. rewrite (bind_some _ _ _ _ _ E). reflexivity. }
  split; [lia|]. split; [exact A|].
  cbn [calibration_result hitAvg missAvg fst snd].
  rewrite !accumulate_exact; try lia.
  - split; reflexivity.
  - eapply Forall_impl; [exact Rm|]. cbn. intros; lia.
  - eapply Forall_impl; [exact Rh|]. cbn. intros; lia.
Qed.

Lemma every_sample_is_averaged_in_witness :
  exists rounds cal s',
    calibrate Script.platform 100 glitch_state = Some (cal, s') /\
    Z.of_nat (length rounds) = 100 /\
    after glitch_state (calibration_events rounds) s' /\
    hitAvg cal = F64.div (F64.of_Z (total_of (hit_durations rounds)))
                         (F64.of_Z 100) /\
    missAvg cal = F64.div (F64.of_Z (total_of (miss_durations rounds)))
                          (F64.of_Z 100).
Proof.
  apply (every_sample_is_averaged_in Script.platform glitch_state 100);
    [vm_compute; split; discriminate|vm_compute; reflexivity].
Defined.

(** ** Classification *)

(** A duration, a [uint32] converted to [float64], is classified by the
    plain comparison of the integer with the value of the threshold. *)
Lemma classify_duration (n : Z) (t : F64.t) (u : Z) :
  0 <= n < 2 ^ 32 ->
  F64.valid t = true ->
  F64.units t = Some u ->
  classify (F64.of_Z n) t = true <-> n * 2 ^ 1074 < u.
Proof.
  intros Hn Vt Ut.
  assert (Hn' : 0 <= n < 2 ^ 53).
  { assert (2 ^ 32 < 2 ^ 53) by (apply Z.pow_lt_mono_r; lia). lia. }
  destruct (F64Facts.of_Z_exact n Hn') as (Vn & Fn & Un).
  assert (Ft : F64.finite t = true) by (destruct t; cbn in *; congruence).
  pose proof (F64Facts.ltb_value_lt _ _ Vn Vt Fn Ft) as Hiff.
  unfold F64.value_lt in Hiff. rewrite Un, Ut in Hiff. exact Hiff.
Qed.

(** C5. The classification is a function of the duration and the threshold
    alone and it is the comparison "duration < threshold": on all
    well-formed finite binary64 values it answers [true] exactly when the
    value of the duration is below the value of the threshold, and [false]
    exactly when it is not. *)
Theorem classify_is_less_than (d t : F64.t) :
  F64.valid d = true ->
  F64.valid t = true ->
  F64.finite d = true ->
  F64.finite t = true ->
  (classify d t = true <-> F64.value_lt d t) /\
  (classify d t = false <-> ~ F64.value_lt d t).
Proof.
  intros Vd Vt Fd Ft.
  pose proof (F64Facts.ltb_value_lt d t Vd Vt Fd Ft) as Hiff.
  fold (classify d t) in Hiff. split; [exact Hiff|].
  destruct (classify d t); split; intros H.
  - discriminate H.
  - exfalso. apply H, Hiff. reflexivity.
  - intros Hlt. apply Hiff in Hlt. discriminate Hlt.
  - reflexivity.
Qed.

Lemma classify_is_less_than_witness :
  (classify (F64.of_Z 10) (F64.of_Z 105) = true
   <-> F64.value_lt (F64.of_Z 10) (F64.of_Z 105)) /\
  (classify (F64.of_Z 10) (F64.of_Z 105) = false
   <-> ~ F64.value_lt (F64.of_Z 10) (F64.of_Z 105)).
Proof.
  apply (classify_is_less_than (F64.of_Z 10) (F64.of_Z 105)); reflexivity.
Defined.

(** * Further properties of the code *)

(** ** The report at its extremes *)

Lemma agreements_all (d p : list bool) :
  length d = length p ->
  agreements d p = Z.of_nat (length d) <-> d = p.
Proof.
  revert p. induction d as [|x d IH]; intros [|y p] Hlen; try discriminate Hlen.
  - split; reflexivity.
  - cbn [agreements length]. injection Hlen as Hlen.
    pose proof (agreements_bound d p) as B. specialize (IH p Hlen).
    destruct (Bool.eqb x y) eqn:Exy.
    + apply Bool.eqb_prop in Exy as ->. split; intros H.
      * f_equal. apply IH. lia.
      * injection H as H. apply IH in H. lia.
    + split; intros H; [lia|].
      injection H as -> _. rewrite Bool.eqb_reflx in Exy. discriminate Exy.
Qed.

Lemma agreements_none (d p : list bool) :
  length d = length p ->
  agreements d p = 0 <-> d = map negb p.
Proof.
  revert p. induction d as [|x d IH]; intros [|y p] Hlen; try discriminate Hlen.
  - split; reflexivity.
  - cbn [agreements length map]. injection Hlen as Hlen.
    pose proof (agreements_bound d p) as B. specialize (IH p Hlen).
    destruct (Bool.eqb x y) eqn:Exy.
    + apply Bool.eqb_prop in Exy as ->. split; intros H; [lia|].
      injection H as Hy _. destruct y; discriminate Hy.
    + split; intros H.
      * f_equal; [destruct x, y; try reflexivity; discriminate Exy|].
        apply IH. lia.
      * injection H as _ H. apply IH in H. lia.
Qed.

(** A finite positive binary64 number divided by itself is exactly one. *)
Lemma div_self (x : F64.t) :
  F64.positive x = true -> F64.finite x = true -> F64.div x x = F64.of_Z 1.
Proof.
  destruct x as [s|s| |s m e]; cbn [F64.positive F64.finite]; try discriminate.
  destruct s; [discriminate|]. intros _ _.
  unfold F64.div, SFdiv, SFdiv_core_binary. cbn [xorb].
  replace (Zdigits2 (Z.pos m) + e - (Zdigits2 (Z.pos m) + e)) with 0 by lia.
  replace (e - e) with 0 by lia.
  change (Z.min (fexp F64.prec F64.emax 0) 0) with (-53).
  change (0 - -53) with 53.
  rewrite Z.shiftl_mul_pow2 by lia.
  pose proof (Z_div_mod (Z.pos m * 2 ^ 53) (Z.pos m) ltac:(lia)) as H.
  destruct (Z.div_eucl (Z.pos m * 2 ^ 53) (Z.pos m)) as [q r].
  assert (Hu : forall c, Z.pos m * c = Z.pos m * q + r -> q = c /\ r = 0).
  { intros c Hc. destruct H as [_ Hr].
    assert (c - q = 0) by nia. split; nia. }
  destruct (Hu _ (proj1 H)) as [-> ->].
  replace (new_location (Z.pos m) 0) with loc_Exact
    by (unfold new_location; destruct (Z.even (Z.pos m)); reflexivity).
  vm_compute. reflexivity.
Qed.

(** X1. Scoring a result against a pattern of the same length [N], with
    [1 <= N < 2 ^ 64]: the report never counts more correct lines than there
    are lines; all lines are correct exactly when the result equals the
    pattern, and then the percentage is exactly 100.0; no line is correct
    exactly when the result is the negated pattern, and then the percentage
    is exactly +0.0. *)
Theorem report_extremes (P : Platform) (s : state P) (N : Z) :
  Z.of_nat (length (detected s)) = N ->
  Z.of_nat (length (victimPattern s)) = N ->
  1 <= N < 2 ^ 64 ->
  exists rep,
    score P N s = Some (rep, s) /\
    0 <= correct rep <= total rep /\
    (correct rep = total rep <-> detected s = victimPattern s) /\
    (correct rep = total rep -> accuracy rep = F64.of_Z 100) /\
    (correct rep = 0 <-> detected s = map negb (victimPattern s)) /\
    (correct rep = 0 -> accuracy rep = F64.zero).
Proof.
  intros Hd Hv HN. eexists. split; [apply (score_run N s Hd Hv)|].
  cbn [correct total accuracy].
  pose proof (agreements_bound (detected s) (victimPattern s)) as B.
  assert (Hlen : length (detected s) = length (victimPattern s)) by lia.
  pose proof (agreements_all _ _ Hlen) as Hall.
  pose proof (agreements_none _ _ Hlen) as Hnone.
  pose proof (F64Facts.of_Z_positive N ltac:(lia)) as Ppos.
  pose proof (F64Facts.of_Z_finite N ltac:(lia)) as Pfin.
  split; [lia|]. split; [rewrite <- Hall; split; lia|]. split.
  { intros ->. rewrite (div_self _ Ppos Pfin). vm_compute. reflexivity. }
  split; [exact Hnone|].
  intros ->. destruct (F64.of_Z N) as [sy|sy| |sy my ey];
    cbn [F64.positive F64.finite] in Ppos, Pfin; try discriminate.
  destruct sy; [discriminate|]. reflexivity.
Qed.

Lemma report_extremes_witness :
  exists rep,
    score scenario 16 scored_state = Some (rep, scored_state) /\
    0 <= correct rep <= total rep /\
    (correct rep = total rep <-> detected scored_state = victimPattern scored_state) /\
    (correct rep = total rep -> accuracy rep = F64.of_Z 100) /\
    (correct rep = 0 <-> detected scored_state = map negb (victimPattern scored_state)) /\
    (correct rep = 0 -> accuracy rep = F64.zero).
Proof.
  apply (report_extremes scenario scored_state 16);
    [reflexivity|reflexivity|vm_compute; split; [discriminate|reflexivity]].
Defined.

(** ** Any pattern on the deterministic stub *)

Lemma stub_session_detected (hwLine hit miss : Z)
    (s : state (Stub.platform hwLine hit miss)) (N lineSize : Z) (thr : F64.t) :
  0 < lineSize ->
  Z.of_nat (length (target s)) = N * lineSize ->
  Z.of_nat (length (victimPattern s)) = N ->
  exists rep s',
    runSession (Stub.platform hwLine hit miss) N lineSize thr s = Some (rep, s') /\
    detected s' = map (stub_verdict hit miss thr) (victimPattern s) /\
    correct rep = agreements (detected s') (victimPattern s) /\
    total rep = N /\
    accuracy rep
    = F64.mul (F64.div (F64.of_Z (correct rep)) (F64.of_Z N)) (F64.of_Z 100).
Proof.
  intros Hls Ht Hv.
  destruct (runSession_run N lineSize thr s Hls Ht Hv)
    as (ms & s' & Hn & _ & E & _ & _ & V & D & G & _).
  pose proof (stub_session_durations hwLine hit miss lineSize _ ms (hw s) 0 Hn G) as F.
  assert (H : forall (b : bool) (m : sample),
             duration m = wrap32 (if b then hit else miss) ->
             verdict thr m = stub_verdict hit miss thr b).
  { intros b m Hbm. unfold verdict, stub_verdict. rewrite Hbm. reflexivity. }
  pose proof (map_of_Forall2 _ _ _ _ _ H F) as Hmap.
  eexists _, s'. split; [exact E|]. cbn [correct total accuracy].
  rewrite D, Hmap. auto.
Qed.

Lemma map_id_bool (f : bool -> bool) (p : list bool) :
  f true = true -> f false = false -> map f p = p.
Proof.
  intros Ht Hf. induction p as [|[] p IH]; cbn; rewrite ?Ht, ?Hf, ?IH; reflexivity.
Qed.

Lemma map_const_bool (f : bool -> bool) (p : list bool) :
  f true = f false -> map f p = replicate (length p) (f true).
Proof.
  intros H. induction p as [|[] p IH]; cbn; rewrite ?IH, ?H; reflexivity.
Qed.

Lemma map_negb_bool (f : bool -> bool) (p : list bool) :
  f true = false -> f false = true -> map f p = map negb p.
Proof.
  intros Ht Hf. induction p as [|[] p IH]; cbn; rewrite ?Ht, ?Hf, ?IH; reflexivity.
Qed.

(** X2. On the stub, with a threshold that classifies the hit latency as
    "accessed" and the miss latency as "not accessed", a session on a buffer
    of [N] lines detects every pattern of [N] booleans exactly, from any
    initial hardware state: the result is the pattern, all [N] lines are
    correct and the percentage is exactly 100.0. *)
Theorem stub_detects_every_pattern (hwLine hit miss : Z)
    (s : state (Stub.platform hwLine hit miss)) (N lineSize : Z) (thr : F64.t) :
  0 < lineSize ->
  Z.of_nat (length (target s)) = N * lineSize ->
  Z.of_nat (length (victimPattern s)) = N ->
  1 <= N < 2 ^ 64 ->
  classify (F64.of_Z (wrap32 hit)) thr = true ->
  classify (F64.of_Z (wrap32 miss)) thr = false ->
  exists rep s',
    runSession (Stub.platform hwLine hit miss) N lineSize thr s = Some (rep, s') /\
    detected s' = victimPattern s /\
    correct rep = N /\
    total rep = N /\
    accuracy rep = F64.of_Z 100.
Proof.
  intros Hls Ht Hv HN Hhit Hmiss.
  destruct (stub_session_detected hwLine hit miss s N lineSize thr Hls Ht Hv)
    as (rep & s' & E & D & C & T & A).
  rewrite (map_id_bool (stub_verdict hit miss thr)) in D by assumption.
  exists rep, s'. split; [exact E|]. split; [exact D|].
  assert (Hc : correct rep = N).
  { rewrite C, D, <- Hv. apply (proj2 (agreements_all _ _ eq_refl)). reflexivity. }
  split; [exact Hc|]. split; [exact T|].
  rewrite A, Hc, div_self.
  - vm_compute. reflexivity.
  - apply F64Facts.of_Z_positive. lia.
  - apply F64Facts.of_Z_finite. lia.
Qed.

Lemma stub_detects_every_pattern_witness :
  exists rep s',
    runSession scenario 16 32 (F64.of_Z 105) scenario_state_alt = Some (rep, s') /\
    detected s' = victimPattern scenario_state_alt /\
    correct rep = 16 /\
    total rep = 16 /\
    accuracy rep = F64.of_Z 100.
Proof.
  apply (stub_detects_every_pattern 32 10 200 scenario_state_alt 16 32 (F64.of_Z 105));
    try reflexivity; vm_compute; split; [discriminate|reflexivity].
Defined.

(** X3. On a stub whose hit and miss latencies coincide the session cannot
    tell the lines apart: every line gets the same verdict, whatever the
    pattern, and the number of correct lines is the number of pattern
    entries equal to that verdict. *)
Theorem stub_equal_latencies_are_blind (hwLine hit miss : Z)
    (s : state (Stub.platform hwLine hit miss)) (N lineSize : Z) (thr : F64.t) :
  0 < lineSize ->
  Z.of_nat (length (target s)) = N * lineSize ->
  Z.of_nat (length (victimPattern s)) = N ->
  wrap32 hit = wrap32 miss ->
  exists rep s',
    runSession (Stub.platform hwLine hit miss) N lineSize thr s = Some (rep, s') /\
    detected s'
    = replicate (length (victimPattern s)) (classify (F64.of_Z (wrap32 hit)) thr) /\
    correct rep
    = agreements (replicate (length (victimPattern s))
                    (classify (F64.of_Z (wrap32 hit)) thr))
        (victimPattern s).
Proof.
  intros Hls Ht Hv Heq.
  destruct (stub_session_detected hwLine hit miss s N lineSize thr Hls Ht Hv)
    as (rep & s' & E & D & C & _).
  rewrite (map_const_bool (stub_verdict hit miss thr)) in D
    by (unfold stub_verdict; rewrite Heq; reflexivity).
  exists rep, s'. split; [exact E|]. split; [exact D|]. rewrite C, D. reflexivity.
Qed.

Lemma stub_equal_latencies_are_blind_witness :
  exists rep s',
    runSession (Stub.platform 32 50 50) 16 32 (F64.of_Z 105)
      (@mkState (Stub.platform 32 50 50) Stub.cold [] demoTarget demoPattern [])
    = Some (rep, s') /\
    detected s' = replicate (length demoPattern)
                    (classify (F64.of_Z (wrap32 50)) (F64.of_Z 105)) /\
    correct rep
    = agreements (replicate (length demoPattern)
                    (classify (F64.of_Z (wrap32 50)) (F64.of_Z 105)))
        demoPattern.
Proof.
  apply (stub_equal_latencies_are_blind 32 50 50
           (@mkState (Stub.platform 32 50 50) Stub.cold [] demoTarget demoPattern [])
           16 32 (F64.of_Z 105));
    reflexivity.
Defined.

(** X4. On a stub whose miss is classified as "accessed" and whose hit is
    not (a threshold on the wrong side of both latencies' order), the
    session reports the negated pattern and not a single line is correct. *)
Theorem stub_inverted_threshold_inverts (hwLine hit miss : Z)
    (s : state (Stub.platform hwLine hit miss)) (N lineSize : Z) (thr : F64.t) :
  0 < lineSize ->
  Z.of_nat (length (target s)) = N * lineSize ->
  Z.of_nat (length (victimPattern s)) = N ->
  classify (F64.of_Z (wrap32 hit)) thr = false ->
  classify (F64.of_Z (wrap32 miss)) thr = true ->
  exists rep s',
    runSession (Stub.platform hwLine hit miss) N lineSize thr s = Some (rep, s') /\
    detected s' = map negb (victimPattern s) /\
    correct rep = 0.
Proof.
  intros Hls Ht Hv Hhit Hmiss.
  destruct (stub_session_detected hwLine hit miss s N lineSize thr Hls Ht Hv)
    as (rep & s' & E & D & C & _).
  rewrite (map_negb_bool (stub_verdict hit miss thr)) in D by assumption.
  exists rep, s'. split; [exact E|]. split; [exact D|].
  rewrite C, D. apply (proj2 (agreements_none _ _ (length_map _ _))). reflexivity.
Qed.

Lemma stub_inverted_threshold_inverts_witness :
  exists rep s',
    runSession (Stub.platform 32 200 10) 16 32 (F64.of_Z 105)
      (@mkState (Stub.platform 32 200 10) Stub.cold [] demoTarget demoPattern [])
    = Some (rep, s') /\
    detected s' = map negb demoPattern /\
    correct rep = 0.
Proof.
  apply (stub_inverted_threshold_inverts 32 200 10
           (@mkState (Stub.platform 32 200 10) Stub.cold [] demoTarget demoPattern [])
           16 32 (F64.of_Z 105));
    reflexivity.
Defined.

(** ** When the session and the calibration panic *)

Lemma for_loop_reaches {P : Platform} {A} (body : Z -> A -> M P A) :
  (forall i a, preserves (body i a)) ->
  forall n i a s r s',
    for_loop n i body a s = Some (r, s') ->
    forall k, (k < n)%nat ->
      exists a_k s_k r_k s_k',
        body (i + Z.of_nat k) a_k s_k = Some (r_k, s_k') /\
        target s_k = target s /\ victimPattern s_k = victimPattern s.
Proof.
  intros Hp. induction n as [|n IH]; intros i a s r s' E k Hk; [lia|].
  cbn [for_loop] in E. unfold bind in E.
  destruct (body i a s) as [[a1 s1]|] eqn:E1; [|discriminate].
  destruct k as [|k].
  - exists a, s, a1, s1. rewrite Z.add_0_r. auto.
  - destruct (IH (i + 1) a1 s1 r s' E k ltac:(lia))
      as (a_k & s_k & r_k & s_k' & Ek & Tk & Vk).
    destruct (Hp i a s a1 s1 E1) as [T1 V1].
    exists a_k, s_k, r_k, s_k'.
    replace (i + Z.of_nat (S k)) with (i + 1 + Z.of_nat k) by lia.
    rewrite Tk, Vk, T1, V1. auto.
Qed.

(** A probe that returns has found its line in the buffer and its entry in
    the pattern. *)
Lemma probe_line_needs {P : Platform} lineSize thr line u (s : state P) x s' :
  probe_line P lineSize thr line u s = Some (x, s') ->
  0 <= line * lineSize < Z.of_nat (length (target s)) /\
  0 <= line < Z.of_nat (length (victimPattern s)).
Proof.
  intros E. unfold probe_line in E. unfold bind at 1 in E.
  destruct (addr_target P (line * lineSize) s) as [[ptr s0]|] eqn:E0; [|discriminate].
  unfold addr_target in E0.
  destruct (Z.leb_spec 0 (line * lineSize)); [|discriminate].
  destruct (Z.ltb_spec (line * lineSize) (Z.of_nat (length (target s))));
    [|discriminate].
  cbn in E0. injection E0 as <- <-. split; [lia|].
  destruct (FlushDataCache_after s) as (s1 & E1 & A1 & _).
  destruct (dsb_after s1) as (s2 & E2 & A2 & _).
  rewrite (bind_some _ _ _ _ _ E1), (bind_some _ _ _ _ _ E2) in E.
  unfold bind at 1 in E.
  destruct (read_pattern P line s2) as [[b s3]|] eqn:E3; [|discriminate].
  unfold read_pattern in E3.
  destruct (Z.leb_spec 0 line); [|discriminate].
  destruct (victimPattern s2 !! Z.to_nat line) eqn:L; [|discriminate].
  apply lookup_lt_Some in L.
  destruct (after_trans _ _ _ _ _ A1 A2) as (_ & _ & V & _). rewrite V in L. lia.
Qed.

Lemma probe_loop_completes {P : Platform} lineSize thr n :
  forall i (s : state P),
    0 <= lineSize ->
    (i + n <= length (victimPattern s))%nat ->
    (i + n <= length (detected s))%nat ->
    (forall j, (i <= j < i + n)%nat ->
               Z.of_nat j * lineSize < Z.of_nat (length (target s))) ->
    exists s',
      for_loop n (Z.of_nat i) (probe_line P lineSize thr) tt s = Some (tt, s') /\
      target s' = target s /\
      victimPattern s' = victimPattern s /\
      length (detected s') = length (detected s).
Proof.
  induction n as [|n IH]; intros i s Hls Hv Hd Ht.
  - exists s. auto.
  - destruct (lookup_lt_is_Some_2 (victimPattern s) i) as [b Hb]; [lia|].
    destruct (probe_line_run lineSize thr (Z.of_nat i) b s)
      as (m & s1 & _ & E1 & _ & B1 & V1 & D1 & _).
    { lia. }
    { specialize (Ht i ltac:(lia)). nia. }
    { rewrite Nat2Z.id. exact Hb. }
    { lia. }
    destruct (IH (S i) s1 Hls) as (s' & E2 & B2 & V2 & D2).
    { rewrite V1. lia. }
    { rewrite D1, length_insert. lia. }
    { rewrite B1. intros j Hj. apply Ht. lia. }
    exists s'. split.
    + cbn [for_loop]. rewrite (bind_some _ _ _ _ _ E1).
      replace (Z.of_nat i + 1) with (Z.of_nat (S i)) by lia. exact E2.
    + rewrite B2, V2, D2, B1, V1, D1, length_insert. auto.
Qed.

(** X5. With a non-negative line size, the session runs to completion
    exactly when the line count [N] is not negative and either there is
    nothing to probe ([N = 0]) or the pattern has at least [N] entries and
    the first byte of the last line, offset [(N - 1) * lineSize], lies in
    the buffer.  In every other case it panics: a negative [N] in the
    allocation of [detected], the others in an index expression.  A session
    that completes leaves [N] verdicts. *)
Theorem session_completes_iff (P : Platform) (s : state P)
    (N lineSize : Z) (thr : F64.t) :
  0 <= lineSize ->
  ((exists rep s', runSession P N lineSize thr s = Some (rep, s')) <->
   (0 <= N /\
    (N = 0 \/
     (N <= Z.of_nat (length (victimPattern s)) /\
      (N - 1) * lineSize < Z.of_nat (length (target s)))))) /\
  (N < 0 -> runSession P N lineSize thr s = None) /\
  (forall rep s', runSession P N lineSize thr s = Some (rep, s') ->
                  Z.of_nat (length (detected s')) = N).
Proof.
  intros Hls.
  set (s0 := mkState (hw s) (trace s) (target s) (victimPattern s)
               (replicate (Z.to_nat N) false)).
  assert (Hneg : N < 0 -> runSession P N lineSize thr s = None).
  { intros HN. unfold runSession, bind, make_detected.
    destruct (Z.ltb_spec N 0); [reflexivity|lia]. }
  assert (Hrun : 0 <= N ->
                 runSession P N lineSize thr s
                 = bind (probe_lines P N lineSize thr) (fun _ => score P N) s0).
  { intros HN. unfold runSession, bind at 1, make_detected.
    destruct (Z.ltb_spec N 0); [lia|reflexivity]. }
  assert (Hok : 0 <= N ->
                N = 0 \/
                (N <= Z.of_nat (length (victimPattern s)) /\
                 (N - 1) * lineSize < Z.of_nat (length (target s))) ->
                exists rep s', runSession P N lineSize thr s = Some (rep, s') /\
                               Z.of_nat (length (detected s')) = N).
  { intros HN Hc.
    destruct (probe_loop_completes lineSize thr (Z.to_nat N) 0 s0 Hls)
      as (s1 & E1 & B1 & V1 & D1).
    { cbn. lia. }
    { cbn. rewrite length_replicate. lia. }
    { cbn. intros j Hj. destruct Hc as [Hc|[_ Hc]]; [lia|].
      apply Z.le_lt_trans with ((N - 1) * lineSize); [|exact Hc]. nia. }
    cbn [s0 detected victimPattern] in D1, V1. rewrite length_replicate in D1.
    eexists _, s1. rewrite (Hrun HN). unfold probe_lines.
    change 0 with (Z.of_nat 0) at 1. rewrite (bind_some _ _ _ _ _ E1).
    unfold score. erewrite bind_some.
    2:{ apply (score_loop_run (Z.to_nat N) 0 0 s1); rewrite ?D1, ?V1; lia. }
    split; [reflexivity|rewrite D1; lia]. }
  assert (Hnec : forall rep s', runSession P N lineSize thr s = Some (rep, s') ->
                 0 <= N /\
                 (N = 0 \/
                  (N <= Z.of_nat (length (victimPattern s)) /\
                   (N - 1) * lineSize < Z.of_nat (length (target s))))).
  { intros rep s' E.
    destruct (Z.lt_ge_cases N 0) as [HN|HN]; [rewrite (Hneg HN) in E; discriminate|].
    split; [exact HN|].
    destruct (Z.eq_dec N 0) as [H0|H0]; [left; exact H0|right].
    rewrite (Hrun HN) in E. unfold bind in E.
    destruct (probe_lines P N lineSize thr s0) as [[u s1]|] eqn:E1; [|discriminate].
    destruct (for_loop_reaches (probe_line P lineSize thr)
                (fun i a => preserves_probe_line lineSize thr i a)
                _ _ _ _ _ _ E1 (Z.to_nat N - 1)%nat ltac:(lia))
      as (a_k & s_k & r_k & s_k' & Ek & Tk & Vk).
    apply probe_line_needs in Ek. rewrite Tk, Vk in Ek.
    cbn [s0 target victimPattern] in Ek.
    replace (0 + Z.of_nat (Z.to_nat N - 1)) with (N - 1) in Ek by lia. lia. }
  split; [split|split].
  - intros (rep & s' & E). exact (Hnec rep s' E).
  - intros [HN Hc]. destruct (Hok HN Hc) as (rep & s' & E & _). eauto.
  - exact Hneg.
  - intros rep s' E. destruct (Hnec rep s' E) as [HN Hc].
    destruct (Hok HN Hc) as (rep2 & s2 & E2 & D2).
    rewrite E in E2. injection E2 as _ <-. exact D2.
Qed.

Lemma session_completes_iff_witness :
  ((exists rep s', runSession scenario 16 32 (F64.of_Z 105) scenario_state
                   = Some (rep, s')) <->
   (0 <= 16 /\
    (16 = 0 \/
     (16 <= Z.of_nat (length (victimPattern scenario_state)) /\
      (16 - 1) * 32 < Z.of_nat (length (target scenario_state)))))) /\
  (16 < 0 -> runSession scenario 16 32 (F64.of_Z 105) scenario_state = None) /\
  (forall rep s', runSession scenario 16 32 (F64.of_Z 105) scenario_state
                  = Some (rep, s') ->
                  Z.of_nat (length (detected s')) = 16).
Proof.
  apply (session_completes_iff scenario scenario_state 16 32 (F64.of_Z 105)). lia.
Defined.

(** X6. The calibration runs to completion exactly when it has no round to
    run ([samples <= 0]) or the buffer is not empty; with a round to run on
    an empty buffer, taking the address of [target[0]] panics. *)
Theorem calibrate_completes_iff (P : Platform) (s : state P) (samples : Z) :
  (exists cal s', calibrate P samples s = Some (cal, s')) <->
  (samples <= 0 \/ target s <> []).
Proof.
  split.
  - intros (cal & s' & E).
    destruct (Z.le_gt_cases samples 0) as [Hn|Hn]; [left; exact Hn|right].
    intros Hnil. unfold calibrate, calibration_sums in E.
    destruct (Z.to_nat samples) as [|k] eqn:Ek; [lia|].
    cbn [for_loop] in E. unfold bind at 1 2, calibration_round at 1 in E.
    unfold bind at 1, addr_target in E. rewrite Hnil in E. cbn in E.
    discriminate E.
  - intros [Hn|Hne].
    + unfold calibrate, calibration_sums.
      replace (Z.to_nat samples) with 0%nat by lia. cbn. eauto.
    + destruct (calibration_sums_run s samples) as (rounds & s' & _ & _ & _ & E).
      { destruct (target s); [congruence|cbn; lia]. }
      eexists _, s'. unfold calibrate. rewrite (bind_some _ _ _ _ _ E). reflexivity.
Qed.

Lemma classify_nan d : classify d S754_nan = false.
Proof. destruct d as [?|?| |[] ? ?]; reflexivity. Qed.

(** X7. With zero samples the calibration touches no hardware and divides
    zero by zero: both averages and the threshold are NaN.  Against a NaN
    threshold every comparison is false, so a session on a buffer of [N]
    lines then reports "not accessed" for every line, on every platform. *)
Theorem zero_samples_detect_nothing (P : Platform) (s s2 : state P) (N lineSize : Z) :
  0 < lineSize ->
  Z.of_nat (length (target s2)) = N * lineSize ->
  Z.of_nat (length (victimPattern s2)) = N ->
  exists rep s2',
    calibrate P 0 s = Some (mkCalibration S754_nan S754_nan S754_nan, s) /\
    runSession P N lineSize S754_nan s2 = Some (rep, s2') /\
    detected s2' = replicate (length (victimPattern s2)) false.
Proof.
  intros Hls Ht Hv.
  destruct (runSession_run N lineSize S754_nan s2 Hls Ht Hv)
    as (ms & s2' & Hn & _ & E & _ & _ & _ & D & _).
  eexists _, s2'. split; [reflexivity|]. split; [exact E|].
  rewrite D, <- Hn. clear. induction ms as [|m ms IH]; [reflexivity|].
  cbn [map length replicate]. rewrite IH. unfold verdict. rewrite classify_nan.
  reflexivity.
Qed.

Lemma zero_samples_detect_nothing_witness :
  exists rep s2',
    calibrate scenario 0 scenario_state
    = Some (mkCalibration S754_nan S754_nan S754_nan, scenario_state) /\
    runSession scenario 16 32 S754_nan scenario_state = Some (rep, s2') /\
    detected s2' = replicate (length (victimPattern scenario_state)) false.
Proof.
  apply (zero_samples_detect_nothing scenario scenario_state scenario_state 16 32);
    reflexivity.
Defined.

(** ** [flushReload] *)

Lemma sub64_advance c d : sub64 (wrap64 (c + d)) (wrap64 c) = wrap64 d.
Proof.
  unfold sub64, wrap64. rewrite <- Zminus_mod. f_equal. lia.
Qed.

(** X8. [flushReload] on a pointer into the buffer, on any platform: it
    returns; it calls, in this order, flush, barrier, generic timer, one
    load of the pointer, barrier, generic timer, and nothing else (the
    busy-wait loop calls nothing); the values are what the hardware handed
    back; the result is the difference of the two timer readings modulo
    [2 ^ 64], never negative; buffer, pattern and result slice are
    untouched. *)
Theorem flushReload_protocol (P : Platform) (s : state P) (ptr : Z) :
  0 <= ptr < Z.of_nat (length (target s)) ->
  exists st en s',
    flushReload P ptr s = Some ((en - st) mod 2 ^ 64, s') /\
    0 <= (en - st) mod 2 ^ 64 < 2 ^ 64 /\
    trace s' = trace s ++ [Ev OpFlushDataCache 0; Ev OpDsb 0; Ev OpCounter st;
                           Ev (OpLoad ptr) 0; Ev OpDsb 0; Ev OpCounter en] /\
    genuine (hw s) [Ev OpFlushDataCache 0; Ev OpDsb 0; Ev OpCounter st;
                    Ev (OpLoad ptr) 0; Ev OpDsb 0; Ev OpCounter en] /\
    target s' = target s /\
    victimPattern s' = victimPattern s /\
    detected s' = detected s.
Proof.
  intros Hp.
  destruct (flushReload_run s ptr Hp) as (st & en & s' & E & T & B & V & D & G & _).
  exists st, en, s'. split; [exact E|].
  split; [apply Z.mod_pos_bound; lia|]. auto 10.
Qed.

Lemma flushReload_protocol_witness :
  exists st en s',
    flushReload scenario 64 scenario_state = Some ((en - st) mod 2 ^ 64, s') /\
    0 <= (en - st) mod 2 ^ 64 < 2 ^ 64 /\
    trace s' = trace scenario_state
               ++ [Ev OpFlushDataCache 0; Ev OpDsb 0; Ev OpCounter st;
                   Ev (OpLoad 64) 0; Ev OpDsb 0; Ev OpCounter en] /\
    genuine (hw scenario_state)
      [Ev OpFlushDataCache 0; Ev OpDsb 0; Ev OpCounter st;
       Ev (OpLoad 64) 0; Ev OpDsb 0; Ev OpCounter en] /\
    target s' = target scenario_state /\
    victimPattern s' = victimPattern scenario_state /\
    detected s' = detected scenario_state.
Proof.
  apply (flushReload_protocol scenario scenario_state 64).
  vm_compute. split; [discriminate|reflexivity].
Defined.

(** X9. On the stub [flushReload] always returns the miss latency (modulo
    [2 ^ 64]), whatever the counter value and however warm the cache was:
    it flushes, and nothing loads the line again before the timed load. *)
Theorem flushReload_on_stub_is_a_miss (hwLine hit miss : Z)
    (s : state (Stub.platform hwLine hit miss)) (ptr : Z) :
  0 <= ptr < Z.of_nat (length (target s)) ->
  exists s',
    flushReload (Stub.platform hwLine hit miss) ptr s = Some (miss mod 2 ^ 64, s') /\
    Stub.cached (hw s') = [Stub.line_of hwLine ptr] /\
    Stub.cycles (hw s') = Stub.cycles (hw s) + miss.
Proof.
  intros Hp.
  destruct (flushReload_run s ptr Hp) as (st & en & s' & E & T & B & V & D & G & H).
  destruct (hw s) as [c l] eqn:Ehw.
  cbn [genuine exec Stub.platform Stub.step fst snd visible Stub.cycles Stub.cached] in G.
  rewrite is_cached_flushed in G.
  cbn [fst snd Stub.cycles Stub.cached] in G.
  destruct G as (_ & _ & -> & _ & _ & -> & _).
  cbn [hw_after exec Stub.platform Stub.step fst snd Stub.cycles Stub.cached] in H.
  rewrite is_cached_flushed in H. cbn [fst snd Stub.cycles Stub.cached] in H.
  exists s'. rewrite E, sub64_advance, H. auto.
Qed.

Lemma flushReload_on_stub_is_a_miss_witness :
  exists s',
    flushReload scenario 64 scenario_state_alt = Some (200 mod 2 ^ 64, s') /\
    Stub.cached (hw s') = [Stub.line_of 32 64] /\
    Stub.cycles (hw s') = Stub.cycles (hw scenario_state_alt) + 200.
Proof.
  apply (flushReload_on_stub_is_a_miss 32 10 200 scenario_state_alt 64).
  vm_compute. split; [discriminate|reflexivity].
Defined.

(** ** The calls of the demo do not depend on the hardware *)

Lemma ops_of_app e1 e2 : ops_of (e1 ++ e2) = ops_of e1 ++ ops_of e2.
Proof. unfold ops_of. apply map_app. Qed.

Lemma ops_of_calibration rounds :
  ops_of (calibration_events rounds) = concat (replicate (length rounds) round_ops).
Proof.
  induction rounds as [|r rounds IH]; [reflexivity|].
  change (calibration_events (r :: rounds))
    with ((hit_events (fst r) ++ miss_events (snd r)) ++ calibration_events rounds).
  rewrite ops_of_app, IH. reflexivity.
Qed.

Lemma ops_of_session lineSize (pattern : list bool) :
  forall (ms : list sample) line,
    length ms = length pattern ->
    ops_of (session_events lineSize line pattern ms) = session_ops lineSize line pattern.
Proof.
  induction pattern as [|b pattern IH]; intros [|m ms] line Hlen;
    try discriminate Hlen; [reflexivity|].
  cbn [session_events session_ops]. rewrite ops_of_app, IH by (cbn in Hlen; lia).
  f_equal. destruct b; reflexivity.
Qed.

Lemma ops_of_distribution addr b ms :
  ops_of (distribution_events addr b ms)
  = concat (replicate (length ms) (turn_ops addr b)).
Proof.
  unfold distribution_events.
  induction ms as [|m ms IH]; [reflexivity|].
  cbn [map concat length replicate]. rewrite ops_of_app, IH.
  f_equal. destruct b; reflexivity.
Qed.

Lemma length_session_ops lineSize (pattern : list bool) :
  forall line,
    Z.of_nat (length (session_ops lineSize line pattern))
    = 5 * Z.of_nat (length pattern) + agreements pattern (map (fun _ => true) pattern).
Proof.
  induction pattern as [|b pattern IH]; intros line; [reflexivity|].
  cbn [session_ops map agreements length]. rewrite length_app, Nat2Z.inj_add, IH.
  destruct b; cbn; lia.
Qed.

(** X10. The calls of a session are a function of the pattern alone: on
    every platform, from every hardware state and for every threshold, a
    session on [N] lines calls the same primitives in the same order, five
    per line plus one victim load per "accessed" entry of the pattern.  No
    counter reading and no verdict changes what the session does next. *)
Theorem session_calls_depend_on_pattern_only (P : Platform) (s : state P)
    (N lineSize : Z) (thr : F64.t) :
  0 < lineSize ->
  Z.of_nat (length (target s)) = N * lineSize ->
  Z.of_nat (length (victimPattern s)) = N ->
  exists rep s' evs,
    runSession P N lineSize thr s = Some (rep, s') /\
    trace s' = trace s ++ evs /\
    ops_of evs = session_ops lineSize 0 (victimPattern s) /\
    Z.of_nat (length evs)
    = 5 * N + agreements (victimPattern s) (map (fun _ => true) (victimPattern s)).
Proof.
  intros Hls Ht Hv.
  destruct (runSession_run N lineSize thr s Hls Ht Hv)
    as (ms & s' & Hn & _ & E & T & _).
  eexists _, s', _. split; [exact E|]. split; [exact T|].
  pose proof (ops_of_session lineSize (victimPattern s) ms 0 Hn) as Hops.
  split; [exact Hops|].
  rewrite <- Hv, <- length_session_ops with (lineSize := lineSize) (line := 0).
  rewrite <- Hops. unfold ops_of. rewrite length_map. reflexivity.
Qed.

Lemma session_calls_depend_on_pattern_only_witness :
  exists rep s' evs,
    runSession scenario 16 32 (F64.of_Z 105) scenario_state = Some (rep, s') /\
    trace s' = trace scenario_state ++ evs /\
    ops_of evs = session_ops 32 0 (victimPattern scenario_state) /\
    Z.of_nat (length evs)
    = 5 * 16 + agreements (victimPattern scenario_state)
                 (map (fun _ => true) (victimPattern scenario_state)).
Proof.
  apply (session_calls_depend_on_pattern_only scenario scenario_state 16 32
           (F64.of_Z 105)); reflexivity.
Defined.

Lemma after_ran {P : Platform} (s s' : state P) evs : after s evs s' -> ran s evs s'.
Proof. intros (T & _ & _ & _ & G & H). repeat split; assumption. Qed.

Lemma ran_trans {P : Platform} (s s1 s2 : state P) e1 e2 :
  ran s e1 s1 -> ran s1 e2 s2 -> ran s (e1 ++ e2) s2.
Proof.
  intros (T1 & G1 & H1) (T2 & G2 & H2). unfold ran.
  rewrite T2, T1, app_assoc, hw_after_app, genuine_app.
  rewrite H1 in G2, H2. auto.
Qed.

Lemma ran_update {P : Platform} (s s' : state P) evs t v d :
  ran s evs s' -> ran s evs (mkState (hw s') (trace s') t v d).
Proof. intros R. exact R. Qed.

Lemma distribution_loop_trace {P : Platform} off b n :
  forall i (s : state P),
    0 <= off < Z.of_nat (length (target s)) ->
    exists ms s',
      length ms = n /\
      Forall valid_sample ms /\
      for_loop n i (distribution_sample P off b) tt s = Some (tt, s') /\
      after s (distribution_events off b ms) s'.
Proof.
  induction n as [|n IH]; intros i s Hoff.
  - exists [], s. split; [reflexivity|]. split; [constructor|].
    split; [reflexivity|apply after_refl].
  - destruct (FlushDataCache_after s) as (s1 & E1 & A1 & _).
    destruct (dsb_after s1) as (s2 & E2 & A2 & _).
    pose proof (after_trans _ _ _ _ _ A1 A2) as A12.
    assert (H2 : 0 <= off < Z.of_nat (length (target s2))).
    { rewrite (after_target_length _ _ _ A12). exact Hoff. }
    destruct (simulateVictimAccess_after off b s2 H2) as (s3 & E3 & A3).
    pose proof (after_trans _ _ _ _ _ A12 A3) as A13.
    destruct (timed_after off s3) as (m & s4 & Vm & A4 & E4).
    { rewrite (after_target_length _ _ _ A13). exact Hoff. }
    pose proof (after_trans _ _ _ _ _ A13 A4) as A14.
    destruct (IH (i + 1) s4) as (ms & s' & Hn & Vms & E5 & A5).
    { rewrite (after_target_length _ _ _ A14). exact Hoff. }
    exists (m :: ms), s'. split; [cbn; lia|]. split; [constructor; assumption|].
    split.
    + cbn [for_loop]. unfold distribution_sample at 1.
      erewrite (bind_some (bind _ _)).
      2:{ rewrite (bind_some _ _ _ _ _ E1), (bind_some _ _ _ _ _ E2).
          rewrite (bind_some _ _ _ _ _ (addr_target_ok off s2 H2)).
          rewrite (bind_some _ _ _ _ _ E3), E4. reflexivity. }
      exact E5.
    + pose proof (after_trans _ _ _ _ _ A14 A5) as A.
      unfold distribution_events. cbn [map concat]. unfold turn_events.
      rewrite <- !app_assoc in A |- *. exact A.
Qed.

(** The whole run of the demo on any platform, call by call. *)
Lemma CacheTimerDemo_trace (P : Platform) (h : machine P) :
  exists pmu timer rounds ms d1 d2 res s',
    length rounds = 100%nat /\
    length ms = 16%nat /\
    length d1 = 10%nat /\
    length d2 = 10%nat /\
    CacheTimerDemo P (boot P h) = Some (res, s') /\
    ran (boot P h)
      (prelude_events pmu timer
       ++ calibration_events rounds
       ++ session_events cacheLineSize 0 demoPattern ms
       ++ distribution_events 0 true d1
       ++ distribution_events cacheLineSize false d2) s' /\
    target s' = demoTarget /\
    victimPattern s' = demoPattern /\
    length (detected s') = 16%nat.
Proof.
  set (s0 := boot P h).
  destruct (unit_call_after OpEnableSMP s0 eq_refl) as (s1 & E1 & A1 & _).
  destruct (unit_call_after OpEnableCache s1 eq_refl) as (s2 & E2 & A2 & _).
  destruct (unit_call_after OpInitGenericTimers s2 eq_refl) as (s3 & E3 & A3 & _).
  destruct (unit_call_after OpEnablePMU s3 eq_refl) as (s4 & E4 & A4 & _).
  destruct (unit_call_after OpResetPMU s4 eq_refl) as (s5 & E5 & A5 & _).
  destruct (readPMUCycleCounter_after s5) as (p1 & s6 & E6 & A6 & _).
  destruct (dsb_after s6) as (s7 & E7 & A7 & _).
  destruct (readPMUCycleCounter_after s7) as (p2 & s8 & E8 & A8 & _).
  destruct (call_after OpCounter s8) as (t1 & s9 & E9 & A9 & _).
  destruct (dsb_after s9) as (s10 & E10 & A10 & _).
  destruct (call_after OpCounter s10) as (t2 & s11 & E11 & A11 & _).
  pose proof (after_trans _ _ _ _ _ A1 (after_trans _ _ _ _ _ A2
               (after_trans _ _ _ _ _ A3 (after_trans _ _ _ _ _ A4
               (after_trans _ _ _ _ _ A5 (after_trans _ _ _ _ _ A6
               (after_trans _ _ _ _ _ A7 (after_trans _ _ _ _ _ A8
               (after_trans _ _ _ _ _ A9 (after_trans _ _ _ _ _ A10 A11))))))))))
    as Apre.
  cbn [app] in Apre.
  change [Ev OpEnableSMP 0; Ev OpEnableCache 0; Ev OpInitGenericTimers 0;
          Ev OpEnablePMU 0; Ev OpResetPMU 0; Ev OpReadPMU p1; Ev OpDsb 0;
          Ev OpReadPMU p2; Ev OpCounter t1; Ev OpDsb 0; Ev OpCounter t2]
    with (prelude_events (p1, p2) (t1, t2)) in Apre.
  set (sa := mkState (hw s11) (trace s11) demoTarget (victimPattern s11)
               (detected s11)).
  pose proof (ran_update _ _ _ demoTarget (victimPattern s11) (detected s11)
                (after_ran _ _ _ Apre)) as Ra.
  fold sa in Ra.
  destruct (calibration_sums_run sa calibSamples) as (rounds & sb & Hr & _ & Ab & Eb).
  { cbn [sa target]. rewrite demoTarget_length. lia. }
  set (cal := calibration_result calibSamples
                (accumulate (hit_durations rounds) 0,
                 accumulate (miss_durations rounds) 0)).
  set (sc := mkState (hw sb) (trace sb) (target sb) demoPattern (detected sb)).
  assert (Hbt : target sb = demoTarget) by (destruct Ab as (_ & -> & _); reflexivity).
  pose proof (ran_update _ _ _ (target sb) demoPattern (detected sb)
                (ran_trans _ _ _ _ _ Ra (after_ran _ _ _ Ab))) as Rc.
  fold sc in Rc.
  destruct (runSession_run numLines cacheLineSize (threshold cal) sc)
    as (ms & sd & Hn & _ & Ed & Td & Bd & Vd & Dd & Gd & Hd).
  { reflexivity. }
  { cbn [sc target]. rewrite Hbt, demoTarget_length. reflexivity. }
  { reflexivity. }
  cbn [sc victimPattern target] in Hn, Td, Bd, Vd, Gd, Hd.
  assert (Rd : ran sc (session_events cacheLineSize 0 demoPattern ms) sd)
    by (repeat split; assumption).
  destruct (distribution_loop_trace 0 true 10 0 sd) as (d1 & se & L1 & _ & Ee & Ae).
  { rewrite Bd, Hbt, demoTarget_length. lia. }
  destruct (distribution_loop_trace cacheLineSize false 10 0 se)
    as (d2 & sf & L2 & _ & Ef & Af).
  { rewrite (after_target_length _ _ _ Ae), Bd, Hbt, demoTarget_length.
    unfold cacheLineSize. lia. }
  pose proof (after_trans _ _ _ _ _ Ae Af) as (_ & Bf & Vf & Df & _).
  pose proof (ran_trans _ _ _ _ _ Rc
                (ran_trans _ _ _ _ _ Rd
                   (ran_trans _ _ _ _ _ (after_ran _ _ _ Ae) (after_ran _ _ _ Af))))
    as R.
  rewrite <- !app_assoc in R.
  eexists (p1, p2), (t1, t2), rounds, ms, d1, d2, _, sf.
  split; [exact Hr|]. split; [exact Hn|]. split; [exact L1|]. split; [exact L2|].
  split.
  { unfold CacheTimerDemo. fold s0.
    unfold EnableSMP, EnableCache, InitGenericTimers, enablePMU,
      resetPMUCycleCounter, Counter.
    rewrite (bind_some _ _ _ _ _ E1), (bind_some _ _ _ _ _ E2),
      (bind_some _ _ _ _ _ E3), (bind_some _ _ _ _ _ E4), (bind_some _ _ _ _ _ E5),
      (bind_some _ _ _ _ _ E6), (bind_some _ _ _ _ _ E7), (bind_some _ _ _ _ _ E8),
      (bind_some _ _ _ _ _ E9), (bind_some _ _ _ _ _ E10), (bind_some _ _ _ _ _ E11).
    erewrite bind_some by reflexivity. fold sa.
    erewrite (bind_some (calibrate P calibSamples)).
    2:{ unfold calibrate. rewrite (bind_some _ _ _ _ _ Eb). reflexivity. }
    fold cal. erewrite bind_some by reflexivity. fold sc.
    rewrite (bind_some _ _ _ _ _ Ed), (bind_some _ _ _ _ _ Ee),
      (bind_some _ _ _ _ _ Ef).
    reflexivity. }
  split; [exact R|].
  rewrite Bf, Vf, Df, Bd, Vd, Dd, Hbt, length_map. auto.
Qed.

(** X11. The demo never panics and does the same thing on every platform:
    from any initial hardware state it runs to completion after exactly
    1209 calls of hardware primitives, the same primitives in the same order
    whatever values the counters return; every value in its trace is what
    the hardware handed back; it ends with the 512-byte buffer holding
    [byte(i)] at offset [i], the pattern in place and 16 verdicts. *)
Theorem demo_always_completes (P : Platform) (h : machine P) :
  exists res s',
    CacheTimerDemo P (boot P h) = Some (res, s') /\
    ops_of (trace s') = demo_ops /\
    length (trace s') = 1209%nat /\
    genuine h (trace s') /\
    length (detected s') = 16%nat /\
    victimPattern s' = demoPattern /\
    length (target s') = 512%nat /\
    (forall i : nat, (i < 512)%nat -> target s' !! i = Some (Z.of_nat i mod 256)).
Proof.
  destruct (CacheTimerDemo_trace P h)
    as (pmu & timer & rounds & ms & d1 & d2 & res & s' & Hr & Hn & L1 & L2 &
        E & (T & G & _) & B & V & D).
  cbn [boot trace hw app] in T, G.
  assert (Hops : ops_of (trace s') = demo_ops).
  { rewrite T, !ops_of_app, ops_of_calibration,
      (ops_of_session cacheLineSize demoPattern ms 0 Hn),
      !ops_of_distribution, Hr, L1, L2. reflexivity. }
  exists res, s'. split; [exact E|]. split; [exact Hops|]. split.
  { rewrite <- (length_map (fun e => match e with Ev o _ => o end)).
    fold (ops_of (trace s')). rewrite Hops. vm_compute. reflexivity. }
  split; [rewrite T; exact G|]. split; [exact D|]. split; [exact V|].
  rewrite B. split; [apply demoTarget_length|].
  intros i Hi. unfold demoTarget.
  apply (lookup_map (fun i => Z.of_nat i mod 256)).
  change (Z.to_nat (cacheLineSize * numLines)) with 512%nat.
  apply lookup_seq. lia.
Qed.

Lemma length_round_ops k :
  Z.of_nat (length (concat (replicate k round_ops))) = 10 * Z.of_nat k.
Proof.
  induction k as [|k IH]; [reflexivity|].
  cbn [replicate concat]. rewrite length_app, Nat2Z.inj_add, IH. cbn. lia.
Qed.

(** X12. The calls of the calibration are a function of the sample count
    alone: on every platform and from every state with a non-empty buffer,
    [samples] rounds call the same ten primitives each, in the same order
    (prime load, barrier, timed load; flush, barrier, timed load), whatever
    the counter returns. *)
Theorem calibration_calls_depend_on_samples_only (P : Platform) (s : state P)
    (samples : Z) :
  0 <= samples ->
  0 < Z.of_nat (length (target s)) ->
  exists cal s' evs,
    calibrate P samples s = Some (cal, s') /\
    trace s' = trace s ++ evs /\
    ops_of evs = concat (replicate (Z.to_nat samples) round_ops) /\
    Z.of_nat (length evs) = 10 * samples.
Proof.
  intros Hn Hlen.
  destruct (calibration_sums_run s samples Hlen) as (rounds & s' & Hr & _ & A & E).
  eexists _, s', _. split.
  { unfold calibrate. rewrite (bind_some _ _ _ _ _ E). reflexivity. }
  destruct A as (T & _). split; [exact T|].
  pose proof (ops_of_calibration rounds) as Hops. rewrite Hr in Hops.
  split; [exact Hops|].
  rewrite <- (length_map (fun e => match e with Ev o _ => o end)).
  fold (ops_of (calibration_events rounds)).
  rewrite Hops, length_round_ops. lia.
Qed.

Lemma calibration_calls_depend_on_samples_only_witness :
  exists cal s' evs,
    calibrate scenario 100 scenario_state = Some (cal, s') /\
    trace s' = trace scenario_state ++ evs /\
    ops_of evs = concat (replicate (Z.to_nat 100) round_ops) /\
    Z.of_nat (length evs) = 10 * 100.
Proof.
  apply (calibration_calls_depend_on_samples_only scenario scenario_state 100);
    [lia|vm_compute; reflexivity].
Defined.

(** ** The timing-distribution loops and the calibration on the stub *)

Lemma stub_turn_duration (hwLine hit miss : Z)
    (h : machine (Stub.platform hwLine hit miss)) addr b m :
  genuine h (turn_events addr b m) ->
  duration m = wrap32 (if b then hit else miss).
Proof.
  destruct m as [st en], h as [c l].
  unfold turn_events, victim_events, timed_events, duration.
  destruct b; cbn [app genuine exec Stub.platform Stub.step fst snd visible
                     Stub.cycles Stub.cached].
  - rewrite is_cached_flushed. cbn [fst snd Stub.cycles Stub.cached].
    rewrite is_cached_loaded. cbn [fst snd Stub.cycles Stub.cached].
    intros (_ & _ & _ & -> & _ & -> & _). apply sub32_advance.
  - rewrite is_cached_flushed. cbn [fst snd Stub.cycles Stub.cached].
    intros (_ & _ & -> & _ & -> & _). apply sub32_advance.
Qed.

Lemma stub_distribution_durations (hwLine hit miss : Z) addr b ms :
  forall h : machine (Stub.platform hwLine hit miss),
    genuine h (distribution_events addr b ms) ->
    Forall (fun m => duration m = wrap32 (if b then hit else miss)) ms.
Proof.
  unfold distribution_events.
  induction ms as [|m ms IH]; intros h G; [constructor|].
  cbn [map concat] in G. apply genuine_app in G as [G1 G2].
  constructor; [exact (stub_turn_duration hwLine hit miss h addr b m G1)|].
  eapply IH. exact G2.
Qed.

(** X13. The timing-distribution loops on the stub: with the victim
    loading the line between flush and reload, each of the [n] samples
    times a hit; with the victim staying away, each times a miss; this from
    any initial counter value and cache content, for any offset in the
    buffer. *)
Theorem stub_distribution_samples (hwLine hit miss : Z)
    (s : state (Stub.platform hwLine hit miss)) (off : Z) (b : bool) (n : nat) :
  0 <= off < Z.of_nat (length (target s)) ->
  exists ms s',
    for_loop n 0 (distribution_sample (Stub.platform hwLine hit miss) off b) tt s
    = Some (tt, s') /\
    trace s' = trace s ++ distribution_events off b ms /\
    length ms = n /\
    Forall (fun m => duration m = (if b then hit else miss) mod 2 ^ 32) ms.
Proof.
  intros Hoff.
  destruct (distribution_loop_trace off b n 0 s Hoff) as (ms & s' & Hn & _ & E & A).
  destruct A as (T & _ & _ & _ & G & _).
  exists ms, s'. split; [exact E|]. split; [exact T|]. split; [exact Hn|].
  exact (stub_distribution_durations hwLine hit miss off b ms (hw s) G).
Qed.

Lemma stub_distribution_samples_witness :
  exists ms s',
    for_loop 10 0 (distribution_sample scenario 32 false) tt scenario_state_alt
    = Some (tt, s') /\
    trace s' = trace scenario_state_alt ++ distribution_events 32 false ms /\
    length ms = 10%nat /\
    Forall (fun m => duration m = (if false then 10 else 200) mod 2 ^ 32) ms.
Proof.
  apply (stub_distribution_samples 32 10 200 scenario_state_alt 32 false 10).
  vm_compute. split; [discriminate|reflexivity].
Defined.

Lemma total_of_replicate n d : total_of (replicate n d) = Z.of_nat n * d.
Proof.
  unfold total_of. induction n as [|n IH]; [reflexivity|].
  cbn [replicate foldr]. rewrite IH. lia.
Qed.

(** X14. The calibration on the stub, for any sample count up to
    [2 ^ 32], from any initial counter value and cache content: every hit
    sample measures the hit latency and every miss sample the miss latency
    (both modulo [2 ^ 32]), so the sums are [samples] times each, and the
    averages are the quotients of those products by [samples]. *)
Theorem stub_calibration_sums (hwLine hit miss : Z)
    (s : state (Stub.platform hwLine hit miss)) (samples : Z) :
  0 <= samples <= 2 ^ 32 ->
  0 < Z.of_nat (length (target s)) ->
  exists cal s',
    calibration_sums (Stub.platform hwLine hit miss) samples s
    = Some ((samples * (hit mod 2 ^ 32), samples * (miss mod 2 ^ 32)), s') /\
    calibrate (Stub.platform hwLine hit miss) samples s = Some (cal, s') /\
    hitAvg cal = F64.div (F64.of_Z (samples * (hit mod 2 ^ 32))) (F64.of_Z samples) /\
    missAvg cal = F64.div (F64.of_Z (samples * (miss mod 2 ^ 32))) (F64.of_Z samples).
Proof.
  intros Hn Hlen.
  destruct (calibration_sums_run s samples Hlen) as (rounds & s' & Hr & V & A & E).
  destruct A as (_ & _ & _ & _ & G & _).
  destruct (stub_calibration_durations hwLine hit miss rounds (hw s) G) as [Dh Dm].
  pose proof (wrap32_range hit) as Rh. pose proof (wrap32_range miss) as Rm.
  assert (Hacc : forall d, 0 <= d < 2 ^ 32 ->
            accumulate (replicate (length rounds) d) 0 = samples * d).
  { intros d Hd. rewrite accumulate_exact, total_of_replicate, Hr, Z2Nat.id; try lia.
    - apply Forall_replicate. lia.
    - rewrite total_of_replicate, Hr, Z2Nat.id by lia.
      change (2 ^ 64) with (2 ^ 32 * 2 ^ 32). nia. }
  rewrite Dh, Dm, !Hacc in E by assumption.
  eexists _, s'. split; [exact E|]. split.
  { unfold calibrate. rewrite (bind_some _ _ _ _ _ E). reflexivity. }
  split; reflexivity.
Qed.

Lemma stub_calibration_sums_witness :
  exists cal s',
    calibration_sums scenario 100 scenario_state_alt
    = Some ((100 * (10 mod 2 ^ 32), 100 * (200 mod 2 ^ 32)), s') /\
    calibrate scenario 100 scenario_state_alt = Some (cal, s') /\
    hitAvg cal = F64.div (F64.of_Z (100 * (10 mod 2 ^ 32))) (F64.of_Z 100) /\
    missAvg cal = F64.div (F64.of_Z (100 * (200 mod 2 ^ 32))) (F64.of_Z 100).
Proof.
  apply (stub_calibration_sums 32 10 200 scenario_state_alt 100);
    [vm_compute; split; discriminate|vm_compute; reflexivity].
Defined.

(** ** The PMU stubs *)

Lemma lor_pow2_bits v n i :
  0 <= n -> Z.testbit (Z.lor v (2 ^ n)) i = Z.testbit v i || (i =? n).
Proof.
  intros Hn. rewrite Z.lor_spec, Z.pow2_bits_eqb by exact Hn.
  rewrite (Z.eqb_sym n i). reflexivity.
Qed.

Lemma lor_range a b :
  0 <= a < 2 ^ 32 -> 0 <= b < 2 ^ 32 -> 0 <= Z.lor a b < 2 ^ 32.
Proof.
  intros Ha Hb.
  assert (H0 : 0 <= Z.lor a b) by (apply Z.lor_nonneg; lia).
  split; [exact H0|].
  destruct (Z.eq_dec (Z.lor a b) 0) as [->|Hne]; [lia|].
  apply Z.log2_lt_pow2; [lia|].
  rewrite Z.log2_lor by lia.
  assert (La : Z.log2 a < 32).
  { destruct (Z.eq_dec a 0) as [->|]; [cbn; lia|apply Z.log2_lt_pow2; lia]. }
  assert (Lb : Z.log2 b < 32).
  { destruct (Z.eq_dec b 0) as [->|]; [cbn; lia|apply Z.log2_lt_pow2; lia]. }
  lia.
Qed.

(** X15. [enablePMU] on any coprocessor: it writes 1 to PMUSERENR, reads
    PMCR, writes PMCR back with bits 0, 2 and 3 set and every other bit as
    read (a read-modify-write that clears nothing), and writes [2 ^ 31] to
    PMCNTENSET, in this order and with no other access; every value fits
    32 bits. *)
Theorem enablePMU_sets_bits_and_keeps_the_rest (C : Pmu.Coprocessor) (c : Pmu.cpu C) :
  exists v w,
    Pmu.log (Pmu.enablePMU c)
    = Pmu.log c ++ [Pmu.Write Pmu.PMUSERENR 1; Pmu.Read Pmu.PMCR v;
                    Pmu.Write Pmu.PMCR w; Pmu.Write Pmu.PMCNTENSET (2 ^ 31)] /\
    0 <= v < 2 ^ 32 /\
    0 <= w < 2 ^ 32 /\
    (forall i, Z.testbit w i
               = Z.testbit v i || (i =? 0) || (i =? 2) || (i =? 3)) /\
    Pmu.R0 (Pmu.enablePMU c) = 2 ^ 31.
Proof.
  unfold Pmu.enablePMU, Pmu.MCR, Pmu.ORR, Pmu.MOVW, Pmu.MRC.
  cbn [Pmu.R0 Pmu.cp15 Pmu.log].
  destruct (Pmu.mrc C Pmu.PMCR _) as [raw cp'].
  cbn [Pmu.R0 Pmu.cp15 Pmu.log].
  exists (wrap32 raw), (Z.lor (Z.lor (Z.lor (wrap32 raw) 1) 4) 8).
  pose proof (wrap32_range raw) as Hv.
  split; [rewrite <- !app_assoc; reflexivity|]. split; [exact Hv|]. split.
  { repeat apply lor_range; try exact Hv; vm_compute; split; congruence. }
  split; [|reflexivity].
  intros i. change 1 with (2 ^ 0). change 4 with (2 ^ 2). change 8 with (2 ^ 3).
  rewrite !lor_pow2_bits by lia. reflexivity.
Qed.

(** X16. [resetPMUCycleCounter] on any coprocessor: it reads PMCR and
    writes it back with bit 2 set and every other bit as read, and accesses
    nothing else; when bit 2 was already read as set it writes back exactly
    what it read. *)
Theorem resetPMUCycleCounter_sets_bit_2_only (C : Pmu.Coprocessor) (c : Pmu.cpu C) :
  exists v w,
    Pmu.log (Pmu.resetPMUCycleCounter c)
    = Pmu.log c ++ [Pmu.Read Pmu.PMCR v; Pmu.Write Pmu.PMCR w] /\
    0 <= v < 2 ^ 32 /\
    0 <= w < 2 ^ 32 /\
    (forall i, Z.testbit w i = Z.testbit v i || (i =? 2)) /\
    (Z.testbit v 2 = true -> w = v).
Proof.
  unfold Pmu.resetPMUCycleCounter, Pmu.MCR, Pmu.ORR, Pmu.MRC.
  destruct (Pmu.mrc C Pmu.PMCR _) as [raw cp'].
  cbn [Pmu.R0 Pmu.cp15 Pmu.log].
  exists (wrap32 raw), (Z.lor (wrap32 raw) 4).
  pose proof (wrap32_range raw) as Hv.
  assert (Hbits : forall i, Z.testbit (Z.lor (wrap32 raw) 4) i
                            = Z.testbit (wrap32 raw) i || (i =? 2)).
  { intros i. change 4 with (2 ^ 2). apply lor_pow2_bits. lia. }
  split; [rewrite <- !app_assoc; reflexivity|]. split; [exact Hv|]. split.
  { apply lor_range; [exact Hv|vm_compute; split; congruence]. }
  split; [exact Hbits|].
  intros H2. apply Z.bits_inj'. intros i _. rewrite Hbits.
  destruct (Z.eqb_spec i 2) as [->|_]; [rewrite H2; reflexivity|apply orb_false_r].
Qed.

Lemma writes_app l k : Pmu.writes (l ++ k) = Pmu.writes l ++ Pmu.writes k.
Proof. unfold Pmu.writes. apply flat_map_app. Qed.

(** X17. The PMU set-up of the demo, [enablePMU] then
    [resetPMUCycleCounter] then a first [readPMUCycleCounter], on any
    coprocessor: the registers written are PMUSERENR, PMCR, PMCNTENSET and
    PMCR again, both PMCR values with bit 2 set; the cycle counter register
    itself is read once and never written; the reading returned fits 32
    bits. *)
Theorem pmu_setup_writes (C : Pmu.Coprocessor) (c : Pmu.cpu C) :
  exists w1 w2 n c',
    Pmu.readPMUCycleCounter (Pmu.resetPMUCycleCounter (Pmu.enablePMU c)) = (n, c') /\
    Pmu.writes (Pmu.log c')
    = Pmu.writes (Pmu.log c)
      ++ [(Pmu.PMUSERENR, 1); (Pmu.PMCR, w1); (Pmu.PMCNTENSET, 2 ^ 31);
          (Pmu.PMCR, w2)] /\
    Z.testbit w1 2 = true /\
    Z.testbit w2 2 = true /\
    0 <= n < 2 ^ 32 /\
    (exists l, Pmu.log c' = l ++ [Pmu.Read Pmu.PMCCNTR n]).
Proof.
  unfold Pmu.readPMUCycleCounter, Pmu.resetPMUCycleCounter, Pmu.enablePMU,
    Pmu.MCR, Pmu.ORR, Pmu.MOVW, Pmu.MRC.
  cbn [Pmu.R0 Pmu.cp15 Pmu.log].
  destruct (Pmu.mrc C Pmu.PMCR _) as [raw1 cp1]. cbn [Pmu.R0 Pmu.cp15 Pmu.log].
  destruct (Pmu.mrc C Pmu.PMCR _) as [raw2 cp2]. cbn [Pmu.R0 Pmu.cp15 Pmu.log].
  destruct (Pmu.mrc C Pmu.PMCCNTR _) as [raw3 cp3]. cbn [Pmu.R0 Pmu.cp15 Pmu.log].
  eexists (Z.lor (Z.lor (Z.lor (wrap32 raw2) 1) 4) 8), (Z.lor (wrap32 raw1) 4), _, _.
  split; [reflexivity|]. cbn [Pmu.log].
  rewrite !writes_app. cbn [Pmu.writes flat_map app].
  split; [rewrite <- !app_assoc, ?app_nil_r; reflexivity|].
  change 1 with (2 ^ 0). change 4 with (2 ^ 2). change 8 with (2 ^ 3).
  rewrite !lor_pow2_bits by lia.
  split; [apply orb_true_iff; left; apply orb_true_r|].
  split; [apply orb_true_r|]. split; [apply wrap32_range|].
  eexists. reflexivity.
Qed.

(** ** The threshold is a number *)

Lemma add_nonneg (x y : F64.t) :
  F64.nonneg x = true -> F64.nonneg y = true -> F64.nonneg (F64.add x y) = true.
Proof.
  destruct x as [sx|sx| |sx mx ex], y as [sy|sy| |sy my ey];
    cbn [F64.nonneg]; intros Hx Hy; try discriminate;
    repeat match goal with
           | H : negb ?b = true |- _ => destruct b; [discriminate H|clear H]
           end;
    try reflexivity.
  - destruct sx, sy; reflexivity.
  - unfold F64.add, SFadd. cbn [cond_Zopp].
    destruct (shl_align mx ex (Z.min ex ey)) as [ax ?].
    destruct (shl_align my ey (Z.min ex ey)) as [ay ?]. cbn [fst].
    change (Z.pos ax + Z.pos ay) with (Z.pos (ax + ay)).
    unfold binary_normalize, binary_round.
    destruct (shl_align (ax + ay) _ _) as [mz ez].
    apply F64Facts.binary_round_aux_nonneg. lia.
Qed.

Lemma div_nonneg_by_finite (x y : F64.t) :
  F64.nonneg x = true -> F64.positive y = true -> F64.finite y = true ->
  F64.nonneg (F64.div x y) = true.
Proof.
  intros Hx Hy Fy.
  destruct x as [sx|sx| |sx mx ex];
    try (apply F64Facts.div_nonneg; [exact Hx|reflexivity|exact Hy]).
  - destruct y as [sy|sy| |sy my ey]; cbn [F64.positive F64.finite] in Hy, Fy;
      try discriminate.
    cbn [F64.nonneg] in Hx. destruct sx, sy; try discriminate. reflexivity.
  - discriminate Hx.
Qed.

(** X18. For every platform and every sample count of at least one, the
    threshold the calibration returns is a number and not negative: it is
    never NaN and [0 <= threshold] holds in binary64. *)
Theorem threshold_is_a_nonnegative_number (P : Platform) (s : state P) (samples : Z) :
  1 <= samples ->
  0 < Z.of_nat (length (target s)) ->
  exists cal s',
    calibrate P samples s = Some (cal, s') /\
    F64.leb F64.zero (threshold cal) = true /\
    threshold cal <> S754_nan.
Proof.
  intros Hn Hlen.
  destruct (calibration_sums_run s samples Hlen) as (rounds & s' & _ & _ & _ & E).
  eexists _, s'. split.
  { unfold calibrate. rewrite (bind_some _ _ _ _ _ E). reflexivity. }
  cbn [calibration_result threshold fst snd].
  assert (Hq : forall ds, F64.nonneg
                 (F64.div (F64.of_Z (accumulate ds 0)) (F64.of_Z samples)) = true).
  { intros ds. pose proof (accumulate_range ds 0 ltac:(lia)) as Hs.
    apply F64Facts.div_nonneg.
    - apply F64Facts.of_Z_nonneg. lia.
    - apply F64Facts.of_Z_finite. lia.
    - apply F64Facts.of_Z_positive. lia. }
  assert (Ht : F64.nonneg
                 (F64.div (F64.add
                    (F64.div (F64.of_Z (accumulate (hit_durations rounds) 0))
                             (F64.of_Z samples))
                    (F64.div (F64.of_Z (accumulate (miss_durations rounds) 0))
                             (F64.of_Z samples)))
                    (F64.of_Z 2)) = true).
  { apply div_nonneg_by_finite; [apply add_nonneg; apply Hq|reflexivity|reflexivity]. }
  split; [apply F64Facts.nonneg_leb; exact Ht|].
  intros Hnan. rewrite Hnan in Ht. discriminate Ht.
Qed.

Lemma threshold_is_a_nonnegative_number_witness :
  exists cal s',
    calibrate Script.platform 100 glitch_state = Some (cal, s') /\
    F64.leb F64.zero (threshold cal) = true /\
    threshold cal <> S754_nan.
Proof.
  apply (threshold_is_a_nonnegative_number Script.platform glitch_state 100);
    [lia|vm_compute; reflexivity].
Defined.

(** ** Wrap-around of the cycle counter *)

(** X19. The two readings of a free-running counter that stood at [c] and
    advanced by [d >= 0] cycles give the duration [d mod 2 ^ 32]: exactly [d]
    whenever fewer than [2 ^ 32] cycles elapsed, also when the counter
    wrapped in between and the second reading is below the first; and never
    more than [d].  A wrap alone never inflates a duration. *)
Theorem one_wrap_does_not_disturb (c d : Z) :
  0 <= d ->
  duration (wrap32 c, wrap32 (c + d)) = d mod 2 ^ 32 /\
  (d < 2 ^ 32 -> duration (wrap32 c, wrap32 (c + d)) = d) /\
  duration (wrap32 c, wrap32 (c + d)) <= d.
Proof.
  intros Hd. unfold duration. cbn [fst snd]. rewrite sub32_advance. unfold wrap32.
  split; [reflexivity|]. split.
  - intros Hlt. apply Z.mod_small. lia.
  - apply Z.mod_le; lia.
Qed.

Lemma one_wrap_does_not_disturb_witness :
  duration (wrap32 4294967290, wrap32 (4294967290 + 200)) = 200 mod 2 ^ 32 /\
  (200 < 2 ^ 32 -> duration (wrap32 4294967290, wrap32 (4294967290 + 200)) = 200) /\
  duration (wrap32 4294967290, wrap32 (4294967290 + 200)) <= 200.
Proof. apply (one_wrap_does_not_disturb 4294967290 200). lia. Defined.

(** ** Scoring and classification at the edges *)

Lemma score_line_needs {P : Platform} i c (s : state P) x s' :
  score_line P i c s = Some (x, s') ->
  0 <= i < Z.of_nat (length (detected s)) /\
  0 <= i < Z.of_nat (length (victimPattern s)).
Proof.
  unfold score_line, bind, read_detected, read_pattern. intros E.
  destruct (Z.leb_spec 0 i); [|discriminate].
  destruct (detected s !! Z.to_nat i) eqn:Ld; [|discriminate].
  destruct (victimPattern s !! Z.to_nat i) eqn:Lv; [|discriminate].
  apply lookup_lt_Some in Ld, Lv. lia.
Qed.

Lemma score_line_state {P : Platform} i c (s : state P) x s' :
  score_line P i c s = Some (x, s') -> s' = s.
Proof.
  unfold score_line, bind, read_detected, read_pattern. intros E.
  destruct (0 <=? i); [|discriminate].
  destruct (detected s !! Z.to_nat i); [|discriminate].
  destruct (victimPattern s !! Z.to_nat i); [|discriminate].
  injection E as _ <-. reflexivity.
Qed.

Lemma score_loop_needs {P : Platform} n :
  forall i c (s : state P) r s',
    for_loop n i (score_line P) c s = Some (r, s') ->
    n = 0%nat \/
    (0 <= i /\
     i + Z.of_nat n <= Z.of_nat (length (detected s)) /\
     i + Z.of_nat n <= Z.of_nat (length (victimPattern s))).
Proof.
  induction n as [|n IH]; intros i c s r s' E; [left; reflexivity|right].
  cbn [for_loop] in E. unfold bind in E.
  destruct (score_line P i c s) as [[c1 s1]|] eqn:E1; [|discriminate].
  pose proof (score_line_state _ _ _ _ _ E1) as ->.
  apply score_line_needs in E1.
  destruct (IH _ _ _ _ _ E) as [->|H]; lia.
Qed.

(** X20. Scoring [N] lines completes exactly when there is nothing to score
    ([N <= 0]) or both the result and the pattern have at least [N] entries;
    it then counts the agreements among the first [N] entries of each,
    ignores everything beyond, and changes nothing in the state. *)
Theorem score_completes_iff (P : Platform) (s : state P) (N : Z) :
  ((exists rep s', score P N s = Some (rep, s')) <->
   (N <= 0 \/ (N <= Z.of_nat (length (detected s)) /\
               N <= Z.of_nat (length (victimPattern s))))) /\
  (forall rep s', score P N s = Some (rep, s') ->
     s' = s /\
     total rep = N /\
     correct rep = agreements (take (Z.to_nat N) (detected s))
                              (take (Z.to_nat N) (victimPattern s))).
Proof.
  assert (Hok : N <= 0 \/ (N <= Z.of_nat (length (detected s)) /\
                           N <= Z.of_nat (length (victimPattern s))) ->
                for_loop (Z.to_nat N) 0 (score_line P) 0 s
                = Some (agreements (take (Z.to_nat N) (detected s))
                                   (take (Z.to_nat N) (victimPattern s)), s)).
  { intros Hc. change 0 with (Z.of_nat 0) at 1.
    rewrite (score_loop_run (Z.to_nat N) 0 0 s) by lia.
    rewrite !drop_0. reflexivity. }
  assert (Hneed : forall rep s', score P N s = Some (rep, s') ->
                  N <= 0 \/ (N <= Z.of_nat (length (detected s)) /\
                             N <= Z.of_nat (length (victimPattern s)))).
  { intros rep s' E.
    destruct (Z.le_gt_cases N 0) as [HN|HN]; [left; exact HN|right].
    unfold score, bind in E.
    destruct (for_loop (Z.to_nat N) 0 (score_line P) 0 s) as [[c s1]|] eqn:E1;
      [|discriminate].
    destruct (score_loop_needs _ _ _ _ _ _ E1) as [H0|H]; lia. }
  split; [split|].
  - intros (rep & s' & E). exact (Hneed rep s' E).
  - intros Hc. unfold score. rewrite (bind_some _ _ _ _ _ (Hok Hc)). eauto.
  - intros rep s' E. pose proof (Hok (Hneed rep s' E)) as El.
    unfold score in E. rewrite (bind_some _ _ _ _ _ El) in E.
    injection E as <- <-. auto.
Qed.

(** X21. Raising the threshold never loses a detection: between
    well-formed finite binary64 values, a duration classified as "accessed"
    under a threshold is classified as "accessed" under every threshold that
    is not below it. *)
Theorem raising_threshold_keeps_detections (d t1 t2 : F64.t) :
  F64.valid d = true -> F64.finite d = true ->
  F64.valid t1 = true -> F64.finite t1 = true ->
  F64.valid t2 = true -> F64.finite t2 = true ->
  ~ F64.value_lt t2 t1 ->
  classify d t1 = true ->
  classify d t2 = true.
Proof.
  intros Vd Fd V1 F1 V2 F2 Hle H1.
  apply (F64Facts.ltb_value_lt d t1 Vd V1 Fd F1) in H1.
  apply (F64Facts.ltb_value_lt d t2 Vd V2 Fd F2).
  unfold F64.value_lt in *.
  destruct (F64.units d) as [ud|]; [|contradiction].
  destruct (F64.units t1) as [u1|]; [|contradiction].
  destruct (F64.units t2) as [u2|] eqn:U2.
  - lia.
  - destruct t2; cbn in F2; discriminate.
Qed.

Lemma raising_threshold_keeps_detections_witness :
  classify (F64.of_Z 10) (F64.of_Z 200) = true.
Proof.
  apply (raising_threshold_keeps_detections (F64.of_Z 10) (F64.of_Z 105) (F64.of_Z 200));
    try reflexivity.
  vm_compute. intros H. discriminate H.
Defined.

(** X22. The conversion [float64(end - start)] loses nothing: a [uint32]
    duration converts to a well-formed binary64 number of exactly its value,
    and against a threshold that is an integer below [2 ^ 53] the verdict is
    the plain integer comparison. *)
Theorem duration_conversion_is_exact (d k : Z) :
  0 <= d < 2 ^ 32 ->
  0 <= k < 2 ^ 53 ->
  F64.valid (F64.of_Z d) = true /\
  F64.units (F64.of_Z d) = Some (d * 2 ^ 1074) /\
  classify (F64.of_Z d) (F64.of_Z k) = (d <? k).
Proof.
  intros Hd Hk.
  assert (Hd' : 0 <= d < 2 ^ 53).
  { assert (2 ^ 32 < 2 ^ 53) by (apply Z.pow_lt_mono_r; lia). lia. }
  destruct (F64Facts.of_Z_exact d Hd') as (Vd & _ & Ud).
  split; [exact Vd|]. split; [exact Ud|].
  apply F64Facts.ltb_of_Z; assumption.
Qed.

Lemma duration_conversion_is_exact_witness :
  F64.valid (F64.of_Z 4294967295) = true /\
  F64.units (F64.of_Z 4294967295) = Some (4294967295 * 2 ^ 1074) /\
  classify (F64.of_Z 4294967295) (F64.of_Z 105) = (4294967295 <? 105).
Proof.
  apply (duration_conversion_is_exact 4294967295 105);
    vm_compute; split; congruence.
Defined.
